(** * Europe's unicorn dashboard: the data preparation, the filters and the
      bar-chart ordering of [main.py], embedded in Rocq.

    The embedding starts from the data frame that [pl.read_csv] returns: a
    list of rows whose text columns are nullable UTF-8 strings (an empty CSV
    field is a null).  A string is kept as the bytes of its UTF-8 form; the
    literal patterns of the program are matched on the bytes, and the class
    [\d] on the characters, where it is the class of the decimal digits of
    every script.  [Float64] values are IEEE 754 binary64 numbers
    ([spec_float] at precision 53 and maximal exponent 1024), so that sums
    and products round as they do in the program. *)

From Stdlib Require Import ZArith List Bool Ascii String Lia.
From Stdlib Require Import Floats.SpecFloat Sorting.Sorted Sorting.Permutation.
Import ListNotations.

Set Implicit Arguments.
Local Open Scope string_scope.
Local Open Scope Z_scope.

(** ** Binary64 arithmetic *)

Module F64.

Definition t := spec_float.

Definition prec : Z := 53.
Definition emax : Z := 1024.

Definition mul : t -> t -> t := SFmul prec emax.
Definition div : t -> t -> t := SFdiv prec emax.
Definition add : t -> t -> t := SFadd prec emax.
Definition leb : t -> t -> bool := SFleb.
Definition ltb : t -> t -> bool := SFltb.

Definition zero : t := S754_zero false.
Definition nan : t := S754_nan.

Definition is_nan (x : t) : bool :=
  match x with S754_nan => true | _ => false end.

Definition is_finite (x : t) : bool :=
  match x with S754_zero _ | S754_finite _ _ _ => true | _ => false end.

(** The integer [z] rounded to the nearest binary64 value. *)
Definition of_Z (z : Z) : t := binary_normalize prec emax z 0 false.

(** The decimal number [(-1)^neg * m * 10^e], rounded once to the nearest
    binary64 value (ties to even): what a correctly rounding decimal parser
    returns for the literal. *)
Definition of_decimal (neg : bool) (m : N) (e : Z) : t :=
  match m with
  | N0 => S754_zero neg
  | Npos p =>
      if 0 <=? e
      then binary_round prec emax neg (p * Z.to_pos (10 ^ e)) 0
      else SFdiv prec emax (S754_finite neg p 0)
                           (S754_finite false (Z.to_pos (10 ^ (- e))) 0)
  end.

End F64.

(** ** Text: the string operations of the column expressions *)

Module Text.

Definition is_digit (c : ascii) : bool :=
  ((48 <=? nat_of_ascii c) && (nat_of_ascii c <=? 57))%nat.

Definition digit_val (c : ascii) : N := N.of_nat (nat_of_ascii c - 48).

(** ASCII lower case, for the case-insensitive spellings of the specials. *)
Definition lower (c : ascii) : ascii :=
  if ((65 <=? nat_of_ascii c) && (nat_of_ascii c <=? 90))%nat
  then ascii_of_nat (nat_of_ascii c + 32) else c.

Fixpoint lowercase (s : string) : string :=
  match s with
  | EmptyString => EmptyString
  | String c s' => String (lower c) (lowercase s')
  end.

Fixpoint drop (n : nat) (s : string) : string :=
  match n, s with
  | O, _ => s
  | S n', String _ s' => drop n' s'
  | S _, EmptyString => EmptyString
  end.

(** The longest prefix of digits, and what follows it. *)
Fixpoint span_digits (s : string) : string * string :=
  match s with
  | String c s' =>
      if is_digit c
      then let (d, r) := span_digits s' in (String c d, r)
      else (EmptyString, s)
  | EmptyString => (EmptyString, EmptyString)
  end.

(** The number a string of digits writes, most significant digit first. *)
Fixpoint digits_value_from (acc : N) (s : string) : N :=
  match s with
  | EmptyString => acc
  | String c s' => digits_value_from (10 * acc + digit_val c)%N s'
  end.

Definition digits_value : string -> N := digits_value_from 0%N.

Fixpoint all_digits (s : string) : bool :=
  match s with
  | EmptyString => true
  | String c s' => is_digit c && all_digits s'
  end.

(** [contains pat s]: [pat] occurs in [s] as a substring. *)
Fixpoint contains (pat s : string) : bool :=
  prefix pat s ||
  match s with
  | EmptyString => false
  | String _ s' => contains pat s'
  end.

(** [pl.Expr.str.replace(pattern, value)] for a pattern that is a literal
    once read as a regular expression (["N/A"], ["\\$"], ["M"], ["B"],
    ["United Kingdom"]) and a value without group references: the FIRST
    occurrence of [pat] is replaced by [value], the rest of the string is
    kept. *)
Fixpoint str_replace (pat value s : string) : string :=
  if prefix pat s then value ++ drop (String.length pat) s
  else match s with
       | EmptyString => EmptyString
       | String c s' => String c (str_replace pat value s')
       end.

(** *** UTF-8 and the class [\d]

    The pattern [\d{4}] is a Unicode pattern: [\d] is any decimal digit
    (general category Nd), not only one of the ten ASCII digits, and it is
    matched on characters, which in a text column are UTF-8 sequences of one
    to four bytes. *)

(** The six bits that a continuation byte [10xxxxxx] carries. *)
Definition continuation (c : ascii) : option N :=
  let b := N_of_ascii c in
  if ((128 <=? b) && (b <? 192))%N then Some (b - 128)%N else None.

(** The character that starts a text: its code point and the text after it.
    [None] at the end of the text and at a byte that starts no character
    (a continuation byte, a truncated or overlong sequence, a surrogate, a
    value above U+10FFFF). *)
Definition next_char (s : string) : option (N * string) :=
  match s with
  | EmptyString => None
  | String c s1 =>
      let b := N_of_ascii c in
      if (b <? 128)%N then Some (b, s1)
      else if (b <? 192)%N then None
      else if (b <? 224)%N then
        match s1 with
        | String c1 s2 =>
            match continuation c1 with
            | Some x1 =>
                let cp := ((b - 192) * 64 + x1)%N in
                if (128 <=? cp)%N then Some (cp, s2) else None
            | None => None
            end
        | _ => None
        end
      else if (b <? 240)%N then
        match s1 with
        | String c1 (String c2 s3) =>
            match continuation c1, continuation c2 with
            | Some x1, Some x2 =>
                let cp := (((b - 224) * 64 + x1) * 64 + x2)%N in
                if ((2048 <=? cp) && negb ((55296 <=? cp) && (cp <? 57344)))%N
                then Some (cp, s3) else None
            | _, _ => None
            end
        | _ => None
        end
      else if (b <? 248)%N then
        match s1 with
        | String c1 (String c2 (String c3 s4)) =>
            match continuation c1, continuation c2, continuation c3 with
            | Some x1, Some x2, Some x3 =>
                let cp := ((((b - 240) * 64 + x1) * 64 + x2) * 64 + x3)%N in
                if ((65536 <=? cp) && (cp <? 1114112))%N
                then Some (cp, s4) else None
            | _, _, _ => None
            end
        | _ => None
        end
      else None
  end.

(** The decimal digits of Unicode 16.0 (general category Nd).  They come in
    runs of ten, the digits zero to nine of a script; the list holds the code
    point of the zero of every run: U+0030 (ASCII), U+0660 (Arabic-Indic),
    U+06F0 (extended Arabic-Indic), and so on to U+1FBF0. *)
Definition decimal_zeros : list N :=
  [ 48; 1632; 1776; 1984; 2406; 2534; 2662; 2790; 2918; 3046; 3174; 3302;
    3430; 3558; 3664; 3792; 3872; 4160; 4240; 6112; 6160; 6470; 6608; 6784;
    6800; 6992; 7088; 7232; 7248; 42528; 43216; 43264; 43472; 43504; 43600;
    44016; 65296; 66720; 68912; 68928; 69734; 69872; 69942; 70096; 70384;
    70736; 70864; 71248; 71360; 71376; 71386; 71472; 71904; 72016; 72688;
    72784; 73040; 73120; 73552; 90416; 92768; 92864; 93008; 93552; 118000;
    120782; 120792; 120802; 120812; 120822; 123200; 123632; 124144; 124401;
    125264; 130032 ]%N.

(** [\d] on a code point. *)
Definition is_decimal (cp : N) : bool :=
  existsb (fun zero => (zero <=? cp) && (cp <? zero + 10))%N decimal_zeros.

(** [\d] at the start of a text: the text after the digit. *)
Definition digit (s : string) : option string :=
  match next_char s with
  | Some (cp, rest) => if is_decimal cp then Some rest else None
  | None => None
  end.

(** [\d{4}] at the start of a text: the text after the four digits. *)
Definition four_digits (s : string) : option string :=
  match digit s with
  | Some s1 =>
      match digit s1 with
      | Some s2 =>
          match digit s2 with
          | Some s3 => digit s3
          | None => None
          end
      | None => None
      end
  | None => None
  end.

(** [pl.Expr.str.extract(r"(\d{4})")]: the first capture group of the
    leftmost match, that is the four characters at the first position where
    four decimal digits stand in a row; null when there is no such
    position.  The search goes through the text byte by byte; no match
    starts inside a character, where [next_char] is [None]. *)
Fixpoint str_extract_d4 (s : string) : option string :=
  match four_digits s with
  | Some rest => Some (substring 0 (String.length s - String.length rest) s)
  | None =>
      match s with
      | EmptyString => None
      | String _ s' => str_extract_d4 s'
      end
  end.

End Text.

(** ** Strict casts of text *)

Module Cast.
Import Text.

Definition strip_sign (s : string) : bool * string :=
  match s with
  | String "-" t => (true, t)
  | String "+" t => (false, t)
  | _ => (false, s)
  end.

(** The exponent part of a decimal literal: nothing, or [e]/[E], an
    optional sign and at least one digit.  Returns the exponent and the
    rest of the text; [None] for an [e] that no digit follows. *)
Definition exponent (s : string) : option (Z * string) :=
  match s with
  | String c t =>
      if (Ascii.eqb c "e" || Ascii.eqb c "E")%bool then
        let (neg, t1) := strip_sign t in
        let (d, t2) := span_digits t1 in
        match d with
        | EmptyString => None
        | _ => let v := Z.of_N (digits_value d) in
               Some (if neg then - v else v, t2)
        end
      else Some (0, s)
  | EmptyString => Some (0, s)
  end.

(** The text-to-[Float64] conversion of [cast(pl.Float64)]: an optional
    sign, then [nan], [inf] or [infinity] in any case, or a decimal literal
    (digits, an optional point and fraction, at least one digit in all, an
    optional exponent); the whole text must be consumed.  [None] is a text
    that does not convert. *)
Definition parse_f64 (s : string) : option F64.t :=
  let (neg, s1) := strip_sign s in
  let low := lowercase s1 in
  if String.eqb low "nan" then Some S754_nan
  else if (String.eqb low "inf" || String.eqb low "infinity")%bool
  then Some (S754_infinity neg)
  else
    let (ip, s2) := span_digits s1 in
    let (fp, s3) :=
      match s2 with
      | String "." t => span_digits t
      | _ => (EmptyString, s2)
      end in
    match (ip ++ fp)%string with
    | EmptyString => None
    | ds =>
        match exponent s3 with
        | Some (e, EmptyString) =>
            Some (F64.of_decimal neg (digits_value ds)
                    (e - Z.of_nat (String.length fp)))
        | _ => None
        end
    end.

(** The text-to-[Int32] conversion of [cast(pl.Int32)]: an optional sign
    and digits, within the 32-bit range. *)
Definition parse_i32 (s : string) : option Z :=
  let (neg, s1) := strip_sign s in
  match s1 with
  | EmptyString => None
  | _ =>
      if all_digits s1 then
        let v := Z.of_N (digits_value s1) in
        let z := if neg then - v else v in
        if (- 2147483648 <=? z) && (z <=? 2147483647) then Some z else None
      else None
  end.

End Cast.

(** ** Errors

    A strict cast that meets a text it cannot convert raises, and the
    exception leaves [prepare_dataset]: the computation is in an error
    monad. *)

Inductive error : Type :=
| ConversionError (column : string).

Inductive result (A : Type) : Type :=
| Ok (a : A)
| Err (e : error).

Arguments Ok {A} a.
Arguments Err {A} e.

Definition bind {A B : Type} (m : result A) (k : A -> result B) : result B :=
  match m with
  | Ok a => k a
  | Err e => Err e
  end.

Notation "x <- m ;; k" := (bind m (fun x => k))
  (at level 61, m at next level, right associativity).

(** A column expression is evaluated on the rows in order; the first value
    that raises aborts the whole evaluation. *)
Fixpoint mapM {A B : Type} (f : A -> result B) (l : list A) : result (list B) :=
  match l with
  | [] => Ok []
  | a :: l' => b <- f a ;; bs <- mapM f l' ;; Ok (b :: bs)
  end.

(** ** Data frames *)

(** A row of the data frame.  The types of [raised_usd] and [valuation_usd]
    change when the columns are cast, and [unicorn_year] is added by the last
    step, so the three are parameters. *)
Record Row (R V Y : Type) : Type := mkRow {
  company : option string;
  country : option string;
  vertical : option string;
  status : option string;
  raised_usd : R;
  valuation_usd : V;
  unicorn_month : option string;
  unicorn_year : Y
}.

(** What [pl.read_csv] returns. *)
Definition RawRow : Type := Row (option string) (option string) unit.

(** What [prepare_dataset] returns. *)
Definition PreparedRow : Type := Row (option F64.t) (option F64.t) (option Z).

Definition DataFrame (R V Y : Type) : Type := list (Row R V Y).

Section Frames.
Context {R V Y : Type}.

(** [df.filter(predicate)]: the rows at which the predicate is true, in
    order; a row at which it is null is dropped like one at which it is
    false. *)
Definition holds (p : Row R V Y -> option bool) (r : Row R V Y) : bool :=
  match p r with
  | Some true => true
  | _ => false
  end.

Definition df_filter (p : Row R V Y -> option bool) (df : DataFrame R V Y)
  : DataFrame R V Y :=
  List.filter (holds p) df.

Definition with_country (f : option string -> option string) (r : Row R V Y)
  : Row R V Y :=
  mkRow (company r) (f (country r)) (vertical r) (status r)
        (raised_usd r) (valuation_usd r) (unicorn_month r) (unicorn_year r).

Definition with_raised_usd {R' : Type} (r : Row R V Y) (x : R') : Row R' V Y :=
  mkRow (company r) (country r) (vertical r) (status r)
        x (valuation_usd r) (unicorn_month r) (unicorn_year r).

Definition with_valuation_usd {V' : Type} (r : Row R V Y) (x : V') : Row R V' Y :=
  mkRow (company r) (country r) (vertical r) (status r)
        (raised_usd r) x (unicorn_month r) (unicorn_year r).

Definition with_unicorn_year {Y' : Type} (r : Row R V Y) (x : Y') : Row R V Y' :=
  mkRow (company r) (country r) (vertical r) (status r)
        (raised_usd r) (valuation_usd r) (unicorn_month r) x.

End Frames.

(** ** Nullable column expressions (three-valued logic) *)

Definition is_in (v : option string) (l : list string) : option bool :=
  option_map (fun s => existsb (String.eqb s) l) v.

Definition eq_str (v : option string) (s : string) : option bool :=
  option_map (fun t => String.eqb t s) v.

Definition ge_int (v : option Z) (n : Z) : option bool :=
  option_map (fun y => n <=? y) v.

Definition le_int (v : option Z) (n : Z) : option bool :=
  option_map (fun y => y <=? n) v.

(** [a & b] on nullable booleans: false wins over null. *)
Definition and3 (a b : option bool) : option bool :=
  match a, b with
  | Some false, _ | _, Some false => Some false
  | Some true, Some true => Some true
  | _, _ => None
  end.

Definition str_replace (pat value : string) (v : option string) : option string :=
  option_map (Text.str_replace pat value) v.

Definition str_extract_d4 (v : option string) : option string :=
  match v with
  | Some s => Text.str_extract_d4 s
  | None => None
  end.

(** [cast(pl.Float64)], strict: a null stays null, a text that does not
    convert raises. *)
Definition cast_f64 (column : string) (v : option string) : result (option F64.t) :=
  match v with
  | None => Ok None
  | Some s =>
      match Cast.parse_f64 s with
      | Some x => Ok (Some x)
      | None => Err (ConversionError column)
      end
  end.

(** [cast(pl.Int32)], strict. *)
Definition cast_i32 (column : string) (v : option string) : result (option Z) :=
  match v with
  | None => Ok None
  | Some s =>
      match Cast.parse_i32 s with
      | Some z => Ok (Some z)
      | None => Err (ConversionError column)
      end
  end.

Definition mul (c : F64.t) (v : option F64.t) : option F64.t :=
  option_map (fun x => F64.mul x c) v.

(** ** [prepare_dataset] *)

Definition european_countries : list string :=
  [ "Austria"; "Belgium"; "Bulgaria"; "Croatia"; "Cyprus"; "Czech Republic";
    "Denmark"; "Estonia"; "Finland"; "France"; "Germany"; "Greece"; "Hungary";
    "Ireland"; "Italy"; "Latvia"; "Lithuania"; "Luxembourg"; "Malta";
    "Netherlands"; "Poland"; "Portugal"; "Romania"; "Slovakia"; "Slovenia";
    "Spain"; "Sweden"; "United Kingdom" ].

(** The Python float [1 / 1e9]. *)
Definition scale : F64.t := F64.div (F64.of_Z 1) (F64.of_decimal false 1 9).

(** The expression both money columns go through:
    [.str.replace("N/A", "0").str.replace("\\$", "").str.replace("M", "e6")
     .str.replace("B", "e9").cast(pl.Float64).mul(1 / 1e9)]. *)
Definition substitute (v : option string) : option string :=
  str_replace "B" "e9" (str_replace "M" "e6" (str_replace "$" "" (str_replace "N/A" "0" v))).

Definition currency (column : string) (v : option string) : result (option F64.t) :=
  x <- cast_f64 column (substitute v) ;;
  Ok (mul scale x).

(** [.str.extract(r"(\d{4})").cast(pl.Int32)]. *)
Definition year_of (v : option string) : result (option Z) :=
  cast_i32 "unicorn_month" (str_extract_d4 v).

Definition prepare_dataset (df : DataFrame (option string) (option string) unit)
  : result (DataFrame (option F64.t) (option F64.t) (option Z)) :=
  let df := df_filter (fun r => is_in (country r) european_countries) df in
  let df := map (with_country (str_replace "United Kingdom" "UK")) df in
  let df := df_filter (fun r => is_in (status r) ["Active"; "Exited"]) df in
  df <- mapM (fun r => x <- currency "raised_usd" (raised_usd r) ;;
                       Ok (with_raised_usd r x)) df ;;
  df <- mapM (fun r => x <- currency "valuation_usd" (valuation_usd r) ;;
                       Ok (with_valuation_usd r x)) df ;;
  df <- mapM (fun r => y <- year_of (unicorn_month r) ;;
                       Ok (with_unicorn_year r y)) df ;;
  Ok df.

(** ** The filters of [main] *)

(** [df["unicorn_year"].min()] and [.max()]: nulls are skipped; null when the
    column holds no value. *)
Definition opt_min (a : option Z) (b : Z) : option Z :=
  match a with
  | Some x => Some (Z.min x b)
  | None => Some b
  end.

Definition opt_max (a : option Z) (b : Z) : option Z :=
  match a with
  | Some x => Some (Z.max x b)
  | None => Some b
  end.

Fixpoint years (df : list PreparedRow) : list Z :=
  match df with
  | [] => []
  | r :: df' =>
      match unicorn_year r with
      | Some y => y :: years df'
      | None => years df'
      end
  end.

Definition year_min (df : list PreparedRow) : option Z :=
  fold_left opt_min (years df) None.

Definition year_max (df : list PreparedRow) : option Z :=
  fold_left opt_max (years df) None.

(** Lines 192 to 202 of [main]: the country filter, the industry filter and
    the year range chosen on the slider. *)
Definition filtered_df (df : list PreparedRow) (location industry : string)
    (year_1b : Z * Z) : list PreparedRow :=
  let filtered :=
    if String.eqb location "All" then df
    else df_filter (fun r => eq_str (country r) location) df in
  let filtered :=
    if negb (String.eqb industry "All")
    then df_filter (fun r => eq_str (vertical r) industry) filtered
    else filtered in
  df_filter (fun r => and3 (ge_int (unicorn_year r) (fst year_1b))
                           (le_int (unicorn_year r) (snd year_1b))) filtered.

(** ** [bar_chart]

    The chart is a declarative description that the renderer evaluates:
    [y = f"{y}:N"] makes one bar per group of the column [y],
    [x = f"{func}({x})"] gives the bar the aggregate of the column [x] over
    the rows of its group, and
    [sort = EncodingSortField(op="count", order="descending")] orders the
    bars.  The sort field names no column and its operation is ["count"]
    whatever [func] is: the bars are ordered by the number of rows of their
    group.  The renderer creates the groups as it meets them in the rows and
    sorts them stably, so groups with the same number of rows stay in
    first-seen order.

    The renderer keys a group by the text of the value, so that a null and
    the text "null" fall in one group; the group shows the value met first.
    A sum adds the numbers of the group: a null and a NaN are skipped, and a
    group in which nothing is left to add has no sum.  A bar whose length
    would not be a finite number is not drawn. *)

Inductive column : Type :=
| Company | Country | Vertical | Status
| RaisedUsd | ValuationUsd | UnicornMonth | UnicornYear.

Inductive cell : Type :=
| Null
| Str (s : string)
| Num (x : F64.t)
| Int (z : Z).

Inductive func : Type := Count | Sum.

Definition text_cell (v : option string) : cell :=
  match v with Some s => Str s | None => Null end.

Definition num_cell (v : option F64.t) : cell :=
  match v with Some x => Num x | None => Null end.

Definition int_cell (v : option Z) : cell :=
  match v with Some z => Int z | None => Null end.

Definition get (r : PreparedRow) (c : column) : cell :=
  match c with
  | Company => text_cell (company r)
  | Country => text_cell (country r)
  | Vertical => text_cell (vertical r)
  | Status => text_cell (status r)
  | RaisedUsd => num_cell (raised_usd r)
  | ValuationUsd => num_cell (valuation_usd r)
  | UnicornMonth => text_cell (unicorn_month r)
  | UnicornYear => int_cell (unicorn_year r)
  end.

Definition float_eq_dec (x y : F64.t) : {x = y} + {x <> y}.
Proof.
  decide equality; try apply Z.eq_dec; try apply Pos.eq_dec; apply bool_dec.
Defined.

Definition cell_eq_dec (a b : cell) : {a = b} + {a <> b}.
Proof.
  decide equality;
    [apply string_dec | apply float_eq_dec | apply Z.eq_dec].
Defined.

Definition cell_eqb (a b : cell) : bool :=
  if cell_eq_dec a b then true else false.

(** What stands for the text of a value when groups are keyed: within one
    column two values have the same key exactly when the renderer writes
    them the same.  The null is written "null", and the two zeros of
    binary64 are both written "0". *)
Definition key (c : cell) : cell :=
  match c with
  | Null => Str "null"
  | Num (S754_zero _) => Num F64.zero
  | _ => c
  end.

Definition same_group (a b : cell) : bool := cell_eqb (key a) (key b).

(** The groups of a list of values, each shown by the value met first. *)
Fixpoint first_seen (l : list cell) : list cell :=
  match l with
  | [] => []
  | a :: l' => a :: List.filter (fun b => negb (same_group a b)) (first_seen l')
  end.

(** The rows of the group of [g] in the column [y]. *)
Definition group (df : list PreparedRow) (y : column) (g : cell)
  : list PreparedRow :=
  List.filter (fun r => same_group (get r y) g) df.

Definition group_count (df : list PreparedRow) (y : column) (g : cell) : nat :=
  List.length (group df y g).

(** The number a value brings to a sum: none for a null and for a NaN; a
    text is not a number. *)
Definition valid (c : cell) : option F64.t :=
  match c with
  | Null => None
  | Num x => if F64.is_nan x then None else Some x
  | Int z => Some (F64.of_Z z)
  | Str _ => Some F64.nan
  end.

Fixpoint numbers (l : list cell) : list F64.t :=
  match l with
  | [] => []
  | c :: l' =>
      match valid c with
      | Some x => x :: numbers l'
      | None => numbers l'
      end
  end.

(** The sum of a column over some rows: the numbers are added in row order
    from zero; there is no sum when there is no number. *)
Definition sum_of (l : list cell) : option F64.t :=
  match numbers l with
  | [] => None
  | xs => Some (fold_left F64.add xs F64.zero)
  end.

(** What is drawn for a group: the number of its rows, or the sum of the
    column [x] over its rows when there is one and it is finite. *)
Definition aggregate (f : func) (x : column) (rows : list PreparedRow)
  : option cell :=
  match f with
  | Count => Some (Int (Z.of_nat (List.length rows)))
  | Sum =>
      match sum_of (map (fun r => get r x) rows) with
      | Some total => if F64.is_finite total then Some (Num total) else None
      | None => None
      end
  end.

(** Stable descending sort on a key, by insertion: a value goes in front of
    the first one whose key is not greater than its own. *)
Section StableSort.
Context {A : Type}.
Variable key : A -> nat.

Fixpoint insert_desc (a : A) (l : list A) : list A :=
  match l with
  | [] => [a]
  | b :: l' =>
      if (key a <? key b)%nat then b :: insert_desc a l' else a :: b :: l'
  end.

Fixpoint sort_desc (l : list A) : list A :=
  match l with
  | [] => []
  | a :: l' => insert_desc a (sort_desc l')
  end.

End StableSort.

(** The bar of a group, if one is drawn. *)
Definition bar (df : list PreparedRow) (y x : column) (f : func) (g : cell)
  : list (cell * cell) :=
  match aggregate f x (group df y g) with
  | Some v => [(g, v)]
  | None => []
  end.

(** The bars of the chart, from top to bottom: the value of [y] that shows
    the group and the aggregate drawn for it. *)
Definition bar_chart (df : list PreparedRow) (y x : column) (f : func)
  : list (cell * cell) :=
  let groups := first_seen (map (fun r => get r y) df) in
  let ordered := sort_desc (group_count df y) groups in
  flat_map (bar df y x f) ordered.

(** ** The selectors of [main]

    [["All"] + sorted(df["country"].unique())], and the same for
    ["vertical"].  [unique()] keeps one copy of every value, the null
    included, in an order that is not specified: the one taken here is the
    order of first occurrence.  [sorted] compares the values with [<]; on
    strings that is the order of the code points, which is the order of the
    bytes of their UTF-8 form, and a comparison with [None] raises
    [TypeError]. *)

Inductive outcome (A : Type) : Type :=
| Returned (a : A)
| TypeError.

Arguments Returned {A} a.
Arguments TypeError {A}.

Definition text_eq_dec (a b : option string) : {a = b} + {a <> b}.
Proof.
  decide equality; apply string_dec.
Defined.

Fixpoint unique (l : list (option string)) : list (option string) :=
  match l with
  | [] => []
  | a :: l' => a :: remove text_eq_dec a (unique l')
  end.

(** [a < b] in Python: defined between two strings only. *)
Definition py_lt (a b : option string) : outcome bool :=
  match a, b with
  | Some x, Some y => Returned (String.ltb x y)
  | _, _ => TypeError
  end.

(** [sorted], by insertion from the right: a value goes in front of the
    first one that is not less than it.  A list of one value is returned
    without any comparison. *)
Fixpoint insert_sorted (a : option string) (l : list (option string))
  : outcome (list (option string)) :=
  match l with
  | [] => Returned [a]
  | b :: l' =>
      match py_lt b a with
      | TypeError => TypeError
      | Returned true =>
          match insert_sorted a l' with
          | Returned r => Returned (b :: r)
          | TypeError => TypeError
          end
      | Returned false => Returned (a :: b :: l')
      end
  end.

Fixpoint sorted (l : list (option string)) : outcome (list (option string)) :=
  match l with
  | [] => Returned []
  | a :: l' =>
      match sorted l' with
      | Returned r => insert_sorted a r
      | TypeError => TypeError
      end
  end.

Definition selectbox_options (col : PreparedRow -> option string)
    (df : list PreparedRow) : outcome (list (option string)) :=
  match sorted (unique (map col df)) with
  | Returned r => Returned (Some "All" :: r)
  | TypeError => TypeError
  end.

(** ** [combine_bar_charts]

    [alt.vconcat()] is a vertical concatenation of no chart; [a | b] adds
    [b] to [a] when [a] is a horizontal concatenation and is otherwise the
    horizontal concatenation of the two.  The three [configure_] calls set
    the configuration of the result. *)

#[warnings="-register-all"]
Inductive chart (A : Type) : Type :=
| Plot (a : A)
| VConcat (charts : list (chart A))
| HConcat (charts : list (chart A)).

Arguments Plot {A} a.
Arguments VConcat {A} charts.
Arguments HConcat {A} charts.

Record config : Type := mkConfig {
  view_stroke : option string;
  concat_spacing : Z;
  axisY_labelPadding : Z;
  axisY_labelAlign : string
}.

Definition hor {A : Type} (a b : chart A) : chart A :=
  match a with
  | HConcat l => HConcat (l ++ [b])
  | _ => HConcat [a; b]
  end.

Definition combine_bar_charts {A : Type} (plots : list (chart A))
  : chart A * config :=
  let combined := fold_left hor plots (VConcat []) in
  (combined, mkConfig None 10 70 "left").

(** * Vocabulary of the statements *)

(** The rows that the two filters of [prepare_dataset] keep, told on the row
    as it is read: the country is in the list and the status is one of the
    two. *)
Definition passes (r : RawRow) : bool :=
  holds (fun r => is_in (country r) european_countries) r
  && holds (fun r => is_in (status r) ["Active"; "Exited"]) r.

(** [p] is the prepared form of the row [r]. *)
Definition prepared_from (r : RawRow) (p : PreparedRow) : Prop :=
  company p = company r
  /\ country p = str_replace "United Kingdom" "UK" (country r)
  /\ vertical p = vertical r
  /\ status p = status r
  /\ currency "raised_usd" (raised_usd r) = Ok (raised_usd p)
  /\ currency "valuation_usd" (valuation_usd r) = Ok (valuation_usd p)
  /\ unicorn_month p = unicorn_month r
  /\ year_of (unicorn_month r) = Ok (unicorn_year p).

(** A money text converts: it is null, or the strict cast accepts what the
    substitutions leave of it. *)
Definition converts (v : option string) : bool :=
  match substitute v with
  | None => true
  | Some s => match Cast.parse_f64 s with Some _ => true | None => false end
  end.

(** The year of a month text converts: the text is null, or holds no four
    decimal digits in a row, or the first four it holds are ASCII digits. *)
Definition year_converts (v : option string) : bool :=
  match str_extract_d4 v with
  | None => true
  | Some d => Text.all_digits d
  end.

(** [Subseq l1 l2]: [l1] is [l2] with some elements left out, the others in
    their order. *)
Inductive Subseq {A : Type} : list A -> list A -> Prop :=
| Subseq_nil : Subseq [] []
| Subseq_skip a l1 l2 : Subseq l1 l2 -> Subseq l1 (a :: l2)
| Subseq_keep a l1 l2 : Subseq l1 l2 -> Subseq (a :: l1) (a :: l2).

Definition has_year (p : PreparedRow) : bool :=
  match unicorn_year p with Some _ => true | None => false end.

(** [0 <= x] on binary64 values; false at NaN. *)
Definition nonneg (x : F64.t) : bool := F64.leb F64.zero x.

(** A row as the CSV reader gives it, every field present. *)
Definition raw_row (name ctry vert st raised valuation month : string) : RawRow :=
  mkRow (Some name) (Some ctry) (Some vert) (Some st)
        (Some raised) (Some valuation) (Some month) tt.

(** The country of a prepared row is one the preparation can produce: "UK",
    or an entry of the list other than "United Kingdom". *)
Definition prepared_country (c : option string) : Prop :=
  c = Some "UK"
  \/ exists s, c = Some s /\ In s european_countries /\ s <> "United Kingdom".

Definition prepared_status (st : option string) : Prop :=
  st = Some "Active" \/ st = Some "Exited".

(** Four characters as a text, and the number four digits write. *)
Definition digits4 (a b c d : ascii) : string :=
  String a (String b (String c (String d EmptyString))).

Definition year_number (a b c d : ascii) : Z :=
  1000 * Z.of_N (Text.digit_val a) + 100 * Z.of_N (Text.digit_val b)
  + 10 * Z.of_N (Text.digit_val c) + Z.of_N (Text.digit_val d).

(** [w] is four decimal digits and nothing else: the pattern [\d{4}]
    matches the whole of [w].  The digits are those of any script. *)
Definition window (w : string) : Prop :=
  Text.four_digits w = Some EmptyString.

(** A text of ASCII characters only: every byte is below 128. *)
Definition ascii_only (s : string) : bool :=
  forallb (fun c => (N_of_ascii c <? 128)%N) (list_ascii_of_string s).

(** ** Tables used as examples *)

Definition sample_table : list RawRow :=
  [ raw_row "Mistral" "France" "AI" "Active" "$500M" "$2B" "June 2023";
    raw_row "Doctolib" "France" "Health" "Active" "$1.5B" "$6.4B" "March 2019";
    raw_row "Revolut" "United Kingdom" "Fintech" "Active" "$1.7B" "$33B"
            "April 2018";
    raw_row "Stripe" "United States" "Fintech" "Active" "$2.2B" "$95B"
            "January 2014";
    raw_row "Klarna" "Sweden" "Fintech" "Exited" "N/A" "$6.7B" "Unknown";
    raw_row "Gorillas" "Germany" "Delivery" "Acquired" "$1.3B" "$2.1B"
            "March 2021" ].

Definition prepared_or_empty (df : list RawRow) : list PreparedRow :=
  match prepare_dataset df with
  | Ok out => out
  | Err _ => []
  end.

Definition sample_prepared : list PreparedRow := prepared_or_empty sample_table.

(** A row whose [raised_usd] text matches no rule. *)
Definition malformed_table : list RawRow :=
  [ raw_row "Acme" "France" "AI" "Active" "abc" "$1B" "March 2015";
    raw_row "Doctolib" "France" "Health" "Active" "$1.5B" "$6.4B" "March 2019" ].

(** A row whose month text writes the year in Arabic-Indic digits, and a
    row whose first four digits end with such a digit, before an ASCII
    year. *)
Definition arabic_year_table : list RawRow :=
  [ raw_row "Mistral" "France" "AI" "Active" "$500M" "$2B" "June 2023";
    raw_row "Swvl" "France" "Mobility" "Active" "$1B" "$2B" "٢٠١٥" ].

Definition mixed_year_table : list RawRow :=
  [ raw_row "Swvl" "France" "Mobility" "Active" "$1B" "$2B" "201٥ 2016" ].

Definition uk_table : list RawRow :=
  [ raw_row "Revolut" "United Kingdom" "Fintech" "Active" "$1.7B" "$33B"
            "April 2018" ].

(** A table with a row whose month text holds no year. *)
Definition null_year_table : list RawRow :=
  [ raw_row "Mistral" "France" "AI" "Active" "$500M" "$2B" "March 2015";
    raw_row "Klarna" "Sweden" "Fintech" "Exited" "N/A" "$6.7B" "Unknown" ].

Definition null_year_prepared : list PreparedRow :=
  prepared_or_empty null_year_table.

(** The binary64 numbers 0.5, 1.5 and 2.0. *)
Definition f_0_5 : F64.t := F64.of_decimal false 5 (-1).
Definition f_1_5 : F64.t := F64.of_decimal false 15 (-1).
Definition f_2_0 : F64.t := F64.of_Z 2.

(** The two rows of the example: France, "$500M" and "$1.5B". *)
Definition france_table : list RawRow :=
  [ raw_row "Mistral" "France" "AI" "Active" "$500M" "$2B" "June 2023";
    raw_row "Doctolib" "France" "Health" "Active" "$1.5B" "$6.4B" "March 2019" ].

Definition france_prepared : list PreparedRow := prepared_or_empty france_table.

(** Rows whose [raised_usd] text has a minus sign, spells [nan], or is
    missing. *)
Definition signed_table : list RawRow :=
  [ raw_row "Acme" "France" "AI" "Active" "-$5M" "$1B" "March 2015";
    raw_row "Bolt" "Estonia" "Mobility" "Active" "nan" "$8B" "May 2018";
    mkRow (Some "Celonis") (Some "Germany") (Some "Software") (Some "Active")
          None (Some "$13B") (Some "June 2018") tt ].

Definition signed_prepared : list PreparedRow := prepared_or_empty signed_table.

(** A money text spells nan: what the substitutions leave of it is, after
    an optional sign, the word nan in any case. *)
Definition spells_nan (s : string) : bool :=
  match substitute (Some s) with
  | Some t => String.eqb (Text.lowercase (snd (Cast.strip_sign t))) "nan"
  | None => false
  end.

(** The value [x] of the money text [s] is not negative: it is NaN when the
    text spells nan, and [0 <= x] when it does not. *)
Definition not_negative (s : string) (x : F64.t) : Prop :=
  if spells_nan s then x = F64.nan else nonneg x = true.

(** The columns whose values are texts or whole numbers, and the columns of
    numbers. *)
Definition discrete (y : column) : bool :=
  match y with
  | RaisedUsd | ValuationUsd => false
  | _ => true
  end.

Definition numeric (x : column) : bool :=
  match x with
  | RaisedUsd | ValuationUsd | UnicornYear => true
  | _ => false
  end.

(** A value that a sum skips: a null or a NaN. *)
Definition missing (c : cell) : bool :=
  match c with
  | Null => true
  | Num x => F64.is_nan x
  | _ => false
  end.

(** The bars are in descending order of the value drawn, compared as
    binary64 numbers. *)
Definition value_of (c : cell) : F64.t :=
  match c with
  | Num x => x
  | Int z => F64.of_Z z
  | _ => F64.nan
  end.

Definition descending_values (bars : list (cell * cell)) : Prop :=
  StronglySorted (fun a b => F64.leb (value_of (snd b)) (value_of (snd a)) = true)
                 bars.

(** One group with a large sum and a single row, one with a small sum and
    two rows. *)
Definition sum_order_table : list RawRow :=
  [ raw_row "Mistral" "France" "AI" "Active" "$500M" "$10B" "June 2023";
    raw_row "Glovo" "Spain" "Delivery" "Active" "$1.2B" "$1B" "May 2019";
    raw_row "Cabify" "Spain" "Mobility" "Active" "$477M" "$1B" "January 2018" ].

Definition sum_order_prepared : list PreparedRow :=
  prepared_or_empty sum_order_table.

(** Counts 3, 5 and 5, the first group of five met before the second. *)
Definition tie_table : list RawRow :=
  map (fun c => raw_row "Company" c "AI" "Active" "$1B" "$1B" "May 2020")
      [ "Austria"; "Belgium"; "Croatia"; "Belgium"; "Croatia"; "Austria";
        "Belgium"; "Croatia"; "Belgium"; "Croatia"; "Austria"; "Belgium";
        "Croatia" ].

Definition tie_prepared : list PreparedRow := prepared_or_empty tie_table.

(** The row [p] is selected by the three controls: the country and the
    industry chosen (or "All"), and the year range. *)
Definition chosen (choice : string) (v : option string) : bool :=
  String.eqb choice "All"
  || match v with Some s => String.eqb s choice | None => false end.

Definition in_range (year_1b : Z * Z) (v : option Z) : bool :=
  match v with
  | Some y => (fst year_1b <=? y) && (y <=? snd year_1b)
  | None => false
  end.

Definition selected (location industry : string) (year_1b : Z * Z)
    (p : PreparedRow) : bool :=
  chosen location (country p) && chosen industry (vertical p)
  && in_range year_1b (unicorn_year p).

(** The number a count bar draws. *)
Definition count_of (c : cell) : Z :=
  match c with
  | Int z => z
  | _ => 0
  end.

Definition total_count (bars : list (cell * cell)) : Z :=
  fold_right Z.add 0 (map (fun b => count_of (snd b)) bars).

(** Strings in ascending order of their bytes, without repetition. *)
Definition str_lt (a b : string) : Prop := String.ltb a b = true.

Definition ascending (names : list string) : Prop := StronglySorted str_lt names.

(** The insertion sort of [sorted] on strings alone, where no comparison
    can raise. *)
Fixpoint insert_str (a : string) (l : list string) : list string :=
  match l with
  | [] => [a]
  | b :: l' => if String.ltb b a then b :: insert_str a l' else a :: b :: l'
  end.

Fixpoint sort_str (l : list string) : list string :=
  match l with
  | [] => []
  | a :: l' => insert_str a (sort_str l')
  end.

(** A prepared table with a row whose industry is missing. *)
Definition null_vertical_prepared : list PreparedRow :=
  [ mkRow (Some "Mistral") (Some "France") (Some "AI") (Some "Active")
          (Some f_0_5) (Some f_2_0) (Some "June 2023") (Some 2023);
    mkRow (Some "Celonis") (Some "Germany") None (Some "Active")
          (Some f_1_5) (Some f_2_0) (Some "June 2018") (Some 2018) ].

(** How many times a character stands in a text. *)
Fixpoint count_char (c : ascii) (s : string) : nat :=
  match s with
  | EmptyString => 0
  | String x s' => (if Ascii.eqb x c then 1 else 0) + count_char c s'
  end.

(** A character that no text of a number holds: not a digit, not one of
    [.eE+-], and not a letter of [nan], [inf] or [infinity] in either
    case. *)
Definition alien (c : ascii) : bool :=
  negb (Text.is_digit c)
  && (count_char c ".eE+-" =? 0)%nat
  && (count_char (Text.lower c) "nanfinity" =? 0)%nat.

(** * Properties *)

(** ** The error monad *)

Lemma bind_Ok_inv {A B : Type} (m : result A) (k : A -> result B) (b : B) :
  bind m k = Ok b -> exists a, m = Ok a /\ k a = Ok b.
Proof.
  destruct m as [a | e]; simpl; intros H; [eauto | discriminate].
Qed.

Lemma mapM_Ok_iff {A B : Type} (f : A -> result B) (l : list A) (out : list B) :
  mapM f l = Ok out <-> Forall2 (fun a b => f a = Ok b) l out.
Proof.
  revert out; induction l as [| a l IH]; intros out; simpl.
  - split; intros H.
    + inversion H; constructor.
    + inversion H; reflexivity.
  - split; intros H.
    + apply bind_Ok_inv in H as (b & Hb & H).
      apply bind_Ok_inv in H as (bs & Hbs & H).
      inversion H; subst; clear H.
      constructor; [assumption | now apply IH].
    + inversion H as [| a' b l' bs Hb Hbs]; subst.
      apply IH in Hbs. rewrite Hb, Hbs. reflexivity.
Qed.

(** ** [prepare_dataset], row by row *)

Lemma df_filter_map {R V Y : Type} (f : Row R V Y -> Row R V Y)
    (p : Row R V Y -> option bool) (df : DataFrame R V Y) :
  df_filter p (map f df) = map f (df_filter (fun r => p (f r)) df).
Proof.
  unfold df_filter. induction df as [| r df IH]; simpl; [reflexivity |].
  change (holds (fun r0 => p (f r0)) r) with (holds p (f r)).
  destruct (holds p (f r)); simpl; now rewrite IH.
Qed.

Lemma df_filter_twice {R V Y : Type} (p q : Row R V Y -> option bool)
    (df : DataFrame R V Y) :
  df_filter q (df_filter p df) = List.filter (fun r => holds p r && holds q r) df.
Proof.
  unfold df_filter. induction df as [| r df IH]; simpl; [reflexivity |].
  destruct (holds p r); simpl; [destruct (holds q r) |]; now rewrite IH.
Qed.

(** Three passes over the rows, each a step that may raise. *)
Lemma mapM_three_passes {A B C D : Type} (f1 : A -> result B)
    (f2 : B -> result C) (f3 : C -> result D) (l : list A) (out : list D) :
  (d0 <- mapM f1 l ;; d1 <- mapM f2 d0 ;; d2 <- mapM f3 d1 ;; Ok d2) = Ok out
  <-> Forall2 (fun a d => exists b c, f1 a = Ok b /\ f2 b = Ok c /\ f3 c = Ok d)
              l out.
Proof.
  split.
  - intros H.
    apply bind_Ok_inv in H as (d0 & H0 & H).
    apply bind_Ok_inv in H as (d1 & H1 & H).
    apply bind_Ok_inv in H as (d2 & H2 & H).
    inversion H; subst; clear H.
    apply mapM_Ok_iff in H0, H1, H2.
    revert d1 out H1 H2.
    induction H0 as [| a b l d0 Hab _ IH]; intros d1 out H1 H2.
    + inversion H1; subst. inversion H2; subst. constructor.
    + inversion H1 as [| ? c ? d1' Hbc H1']; subst.
      inversion H2 as [| ? d ? out' Hcd H2']; subst.
      constructor; [exists b, c; auto | now apply (IH d1')].
  - intros H.
    assert (E : exists d0 d1, mapM f1 l = Ok d0 /\ mapM f2 d0 = Ok d1
                              /\ mapM f3 d1 = Ok out).
    { induction H as [| a d l out (b & c & Hb & Hc & Hd) _
                        (d0 & d1 & H0 & H1 & H2)].
      - exists [], []. auto.
      - exists (b :: d0), (c :: d1). simpl.
        rewrite Hb, Hc, Hd, H0, H1, H2. auto. }
    destruct E as (d0 & d1 & H0 & H1 & H2).
    rewrite H0; simpl. rewrite H1; simpl. rewrite H2; reflexivity.
Qed.

Lemma Forall2_map_l {A B C : Type} (f : A -> B) (P : B -> C -> Prop)
    (l : list A) (out : list C) :
  Forall2 P (map f l) out <-> Forall2 (fun a c => P (f a) c) l out.
Proof.
  revert out; induction l as [| a l IH]; intros out; simpl.
  - split; intros H; inversion H; constructor.
  - split; intros H; inversion H; subst; constructor; trivial; now apply IH.
Qed.

Lemma Forall2_impl {A B : Type} (P Q : A -> B -> Prop) (l : list A)
    (out : list B) :
  (forall a b, P a b -> Q a b) -> Forall2 P l out -> Forall2 Q l out.
Proof.
  intros HPQ; induction 1; constructor; auto.
Qed.

(** The result of [prepare_dataset], when there is one, is the list of the
    prepared forms of the rows that pass the filters, in their order. *)
Lemma prepare_dataset_Ok_iff (df : list RawRow) (out : list PreparedRow) :
  prepare_dataset df = Ok out <->
  Forall2 prepared_from (List.filter passes df) out.
Proof.
  unfold prepare_dataset. cbv zeta.
  rewrite df_filter_map. simpl status.
  rewrite df_filter_twice.
  change (List.filter (fun r => holds _ r && holds _ r) df)
    with (List.filter passes df).
  etransitivity; [apply mapM_three_passes |].
  rewrite Forall2_map_l.
  split; apply Forall2_impl; intros r p.
  - intros (b & c & Hb & Hc & Hp).
    apply bind_Ok_inv in Hb as (x & Hx & Hb).
    apply bind_Ok_inv in Hc as (v & Hv & Hc).
    apply bind_Ok_inv in Hp as (y & Hy & Hp).
    inversion Hb; inversion Hc; inversion Hp; subst; simpl in *.
    repeat split; trivial.
  - intros (Hc & Hco & Hv & Hs & Hr & Hva & Hm & Hy).
    exists (with_raised_usd
              (with_country (str_replace "United Kingdom" "UK") r)
              (raised_usd p)).
    exists (with_valuation_usd
              (with_raised_usd
                 (with_country (str_replace "United Kingdom" "UK") r)
                 (raised_usd p))
              (valuation_usd p)).
    simpl. rewrite Hr, Hva, Hy. simpl.
    destruct p; simpl in *; subst; auto.
Qed.

(** ** The filters of [prepare_dataset] *)

Lemma holds_is_in {R V Y : Type} (col : Row R V Y -> option string)
    (l : list string) (r : Row R V Y) :
  holds (fun r => is_in (col r) l) r = true <->
  exists s, col r = Some s /\ In s l.
Proof.
  unfold holds, is_in. destruct (col r) as [s |]; simpl.
  - destruct (existsb (String.eqb s) l) eqn:E.
    + apply existsb_exists in E as (x & Hx & E). apply String.eqb_eq in E.
      subst x. split; eauto.
    + split; [discriminate | intros (s' & Hs & Hin)].
      inversion Hs; subst s'.
      assert (existsb (String.eqb s) l = true) as E'
          by (apply existsb_exists; exists s; split; trivial; apply String.eqb_refl).
      congruence.
  - split; [discriminate | intros (s & Hs & _); discriminate].
Qed.

Lemma passes_iff (r : RawRow) :
  passes r = true <->
  (exists c, country r = Some c /\ In c european_countries)
  /\ prepared_status (status r).
Proof.
  unfold passes. rewrite andb_true_iff, !holds_is_in. unfold prepared_status.
  split; intros [Hc Hs]; split; trivial.
  - destruct Hs as (s & -> & [<- | [<- | []]]); auto.
  - destruct Hs as [-> | ->]; eexists; split; try reflexivity; simpl; auto.
Qed.

(** The renaming on a country of the list: "United Kingdom" becomes "UK",
    every other entry is unchanged. *)
Lemma rename_european (c : string) :
  In c european_countries ->
  Text.str_replace "United Kingdom" "UK" c
  = if String.eqb c "United Kingdom" then "UK" else c.
Proof.
  intros H. simpl in H.
  repeat (destruct H as [<- | H]; [reflexivity |]). contradiction.
Qed.

Lemma prepared_from_passes (r : RawRow) (p : PreparedRow) :
  passes r = true -> prepared_from r p ->
  prepared_country (country p) /\ prepared_status (status p).
Proof.
  intros Hr (_ & Hco & _ & Hs & _).
  apply passes_iff in Hr as ((c & Hc & Hin) & Hst).
  rewrite Hs. split; trivial.
  rewrite Hco, Hc. simpl. rewrite (rename_european Hin).
  destruct (String.eqb c "United Kingdom") eqn:E.
  - now left.
  - right. exists c. repeat split; trivial.
    intros ->. rewrite String.eqb_refl in E. discriminate.
Qed.

Lemma Forall2_filter_l {A B : Type} (P : A -> B -> Prop) (f : A -> bool)
    (l : list A) (out : list B) :
  Forall2 P (List.filter f l) out ->
  Forall2 (fun a b => f a = true /\ P a b) (List.filter f l) out.
Proof.
  revert out; induction l as [| a l IH]; intros out; simpl.
  - intros H; inversion H; constructor.
  - destruct (f a) eqn:E; [| apply IH].
    intros H; inversion H; subst. constructor; auto.
Qed.

Lemma Forall2_Forall_r {A B : Type} (P : A -> B -> Prop) (Q : B -> Prop)
    (l : list A) (out : list B) :
  (forall a b, P a b -> Q b) -> Forall2 P l out -> Forall Q out.
Proof.
  intros HPQ; induction 1; constructor; eauto.
Qed.

Lemma Forall2_In_l {A B : Type} (P : A -> B -> Prop) (l : list A)
    (out : list B) (a : A) :
  Forall2 P l out -> In a l -> exists b, In b out /\ P a b.
Proof.
  induction 1 as [| a' b l out Hab _ IH]; simpl; [contradiction |].
  intros [<- | Hin]; [eauto |].
  destruct (IH Hin) as (b' & Hb' & Hp); eauto.
Qed.

Lemma Subseq_filter {A : Type} (f : A -> bool) (l : list A) :
  Subseq (List.filter f l) l.
Proof.
  induction l as [| a l IH]; simpl; [constructor |].
  destruct (f a); now constructor.
Qed.

Lemma Subseq_refl {A : Type} (l : list A) : Subseq l l.
Proof.
  induction l; now constructor.
Qed.

Lemma Subseq_trans {A : Type} (l1 l2 l3 : list A) :
  Subseq l1 l2 -> Subseq l2 l3 -> Subseq l1 l3.
Proof.
  intros H12 H23; revert l1 H12.
  induction H23 as [| a l2 l3 _ IH | a l2 l3 _ IH]; intros l1 H12.
  - assumption.
  - apply Subseq_skip; auto.
  - inversion H12; subst; [apply Subseq_skip | apply Subseq_keep]; auto.
Qed.

(** ** Statements on [prepare_dataset] and its filters *)

Lemma currency_Ok_converts (column : string) (v : option string) :
  (exists x, currency column v = Ok x) <-> converts v = true.
Proof.
  unfold currency, converts, cast_f64.
  destruct (substitute v) as [s |]; simpl.
  - destruct (Cast.parse_f64 s); simpl; split; eauto; try discriminate.
    intros (x & H); discriminate.
  - split; eauto.
Qed.

(** ** The year of a text *)

Lemma is_digit_val (c : ascii) :
  Text.is_digit c = true -> (Text.digit_val c <= 9)%N.
Proof.
  unfold Text.is_digit, Text.digit_val. rewrite andb_true_iff.
  rewrite !Nat.leb_le. lia.
Qed.

Lemma strip_sign_digit (a : ascii) (t : string) :
  Text.is_digit a = true -> Cast.strip_sign (String a t) = (false, String a t).
Proof.
  destruct a as [[] [] [] [] [] [] [] []]; try discriminate; reflexivity.
Qed.

Lemma parse_i32_digits4 (a b c d : ascii) :
  Text.is_digit a = true -> Text.is_digit b = true ->
  Text.is_digit c = true -> Text.is_digit d = true ->
  Cast.parse_i32 (digits4 a b c d) = Some (year_number a b c d).
Proof.
  intros Ha Hb Hc Hd. unfold Cast.parse_i32, digits4.
  rewrite strip_sign_digit by assumption. simpl Text.all_digits.
  rewrite Ha, Hb, Hc, Hd. simpl andb.
  apply is_digit_val in Ha, Hb, Hc, Hd.
  unfold Text.digits_value; cbn [Text.digits_value_from]. cbv zeta.
  set (v := Z.of_N _).
  assert (Hv : v = year_number a b c d /\ 0 <= v <= 9999)
    by (unfold v, year_number; lia).
  destruct Hv as [Hv Hr]. clearbody v.
  destruct (Z.leb_spec (- 2147483648) v); [| lia].
  destruct (Z.leb_spec v 2147483647); [| lia].
  simpl. now rewrite Hv.
Qed.

(** On the ASCII characters [\d] is the class of the ten digits. *)
Lemma is_decimal_ascii (a : ascii) :
  (N_of_ascii a <? 128)%N = true ->
  Text.is_decimal (N_of_ascii a) = Text.is_digit a.
Proof.
  destruct a as [[] [] [] [] [] [] [] []]; intros H;
    try discriminate H; reflexivity.
Qed.

Lemma is_digit_ascii (a : ascii) :
  Text.is_digit a = true -> (N_of_ascii a <? 128)%N = true.
Proof.
  destruct a as [[] [] [] [] [] [] [] []]; intros H;
    try discriminate H; reflexivity.
Qed.

Lemma next_char_ascii (a : ascii) (s : string) :
  (N_of_ascii a <? 128)%N = true ->
  Text.next_char (String a s) = Some (N_of_ascii a, s).
Proof.
  intros H. unfold Text.next_char. cbv zeta. now rewrite H.
Qed.

Lemma digit_ascii (a : ascii) (s : string) :
  (N_of_ascii a <? 128)%N = true ->
  Text.digit (String a s) = if Text.is_digit a then Some s else None.
Proof.
  intros H. unfold Text.digit.
  now rewrite next_char_ascii, is_decimal_ascii by assumption.
Qed.

(** A character is one to four bytes at the head of the text, and is read
    the same whatever follows it. *)
Lemma next_char_split (s : string) (cp : N) (r : string) :
  Text.next_char s = Some (cp, r) ->
  exists w, s = (w ++ r)%string
            /\ (1 <= String.length w)%nat
            /\ forall t, Text.next_char (w ++ t) = Some (cp, t).
Proof.
  destruct s as [| c s1]; [discriminate |].
  unfold Text.next_char. cbv zeta.
  destruct (N_of_ascii c <? 128)%N eqn:E1.
  { intros H; inversion H; subst. exists (String c EmptyString).
    repeat split; [simpl; lia |]. intros t. simpl. now rewrite E1. }
  destruct (N_of_ascii c <? 192)%N eqn:E2; [discriminate |].
  destruct (N_of_ascii c <? 224)%N eqn:E3.
  { destruct s1 as [| c1 s2]; [discriminate |].
    destruct (Text.continuation c1) as [x1 |] eqn:C1; [| discriminate].
    destruct (128 <=? (N_of_ascii c - 192) * 64 + x1)%N eqn:R; [| discriminate].
    intros H; inversion H; subst.
    exists (String c (String c1 EmptyString)).
    repeat split; [simpl; lia |]. intros t. simpl.
    now rewrite E1, E2, E3, C1, R. }
  destruct (N_of_ascii c <? 240)%N eqn:E4.
  { destruct s1 as [| c1 [| c2 s3]]; try discriminate.
    destruct (Text.continuation c1) as [x1 |] eqn:C1; [| discriminate].
    destruct (Text.continuation c2) as [x2 |] eqn:C2; [| discriminate].
    match goal with
    | |- (if ?b then _ else _) = _ -> _ => destruct b eqn:R; [| discriminate]
    end.
    intros H; inversion H; subst.
    exists (String c (String c1 (String c2 EmptyString))).
    repeat split; [simpl; lia |]. intros t. simpl.
    now rewrite E1, E2, E3, E4, C1, C2, R. }
  destruct (N_of_ascii c <? 248)%N eqn:E5; [| discriminate].
  destruct s1 as [| c1 [| c2 [| c3 s4]]]; try discriminate.
  destruct (Text.continuation c1) as [x1 |] eqn:C1; [| discriminate].
  destruct (Text.continuation c2) as [x2 |] eqn:C2; [| discriminate].
  destruct (Text.continuation c3) as [x3 |] eqn:C3; [| discriminate].
  match goal with
  | |- (if ?b then _ else _) = _ -> _ => destruct b eqn:R; [| discriminate]
  end.
  intros H; inversion H; subst.
  exists (String c (String c1 (String c2 (String c3 EmptyString)))).
  repeat split; [simpl; lia |]. intros t. simpl.
  now rewrite E1, E2, E3, E4, E5, C1, C2, C3, R.
Qed.

Lemma digit_split (s r : string) :
  Text.digit s = Some r ->
  exists w, s = (w ++ r)%string
            /\ (1 <= String.length w)%nat
            /\ forall t, Text.digit (w ++ t) = Some t.
Proof.
  unfold Text.digit.
  destruct (Text.next_char s) as [[cp r'] |] eqn:E; [| discriminate].
  destruct (Text.is_decimal cp) eqn:D; [| discriminate].
  intros H; inversion H; subst r'.
  apply next_char_split in E as (w & Hs & Hl & Hw).
  exists w. repeat split; trivial.
  intros t. now rewrite Hw, D.
Qed.

Lemma append_assoc (a b c : string) :
  ((a ++ b) ++ c = a ++ b ++ c)%string.
Proof.
  induction a as [| x a IH]; simpl; [reflexivity | now rewrite IH].
Qed.

Lemma append_empty (a : string) : (a ++ EmptyString)%string = a.
Proof.
  induction a as [| x a IH]; simpl; [reflexivity | now rewrite IH].
Qed.

Lemma length_append (a b : string) :
  String.length (a ++ b) = (String.length a + String.length b)%nat.
Proof.
  induction a as [| x a IH]; simpl; [reflexivity | now rewrite IH].
Qed.

Lemma substring_prefix (w r : string) :
  substring 0 (String.length (w ++ r) - String.length r) (w ++ r) = w.
Proof.
  rewrite length_append.
  replace (String.length w + String.length r - String.length r)%nat
    with (String.length w) by lia.
  induction w as [| x w IH]; simpl.
  - destruct r; reflexivity.
  - now rewrite IH.
Qed.

(** A match of [\d{4}] is a window at the head of the text. *)
Lemma four_digits_split (s r : string) :
  Text.four_digits s = Some r ->
  exists w, s = (w ++ r)%string /\ window w
            /\ forall t, Text.four_digits (w ++ t) = Some t.
Proof.
  unfold window, Text.four_digits.
  destruct (Text.digit s) as [s1 |] eqn:E1; [| discriminate].
  destruct (Text.digit s1) as [s2 |] eqn:E2; [| discriminate].
  destruct (Text.digit s2) as [s3 |] eqn:E3; [| discriminate].
  intros E4.
  apply digit_split in E1 as (w1 & -> & _ & H1).
  apply digit_split in E2 as (w2 & -> & _ & H2).
  apply digit_split in E3 as (w3 & -> & _ & H3).
  apply digit_split in E4 as (w4 & -> & _ & H4).
  assert (K : forall t,
             match Text.digit (w1 ++ w2 ++ w3 ++ w4 ++ t) with
             | Some s1 =>
                 match Text.digit s1 with
                 | Some s2 =>
                     match Text.digit s2 with
                     | Some s3 => Text.digit s3
                     | None => None
                     end
                 | None => None
                 end
             | None => None
             end = Some t)
    by (intros t; now rewrite H1, H2, H3, H4).
  exists (w1 ++ w2 ++ w3 ++ w4)%string. repeat split.
  - now rewrite !append_assoc.
  - specialize (K EmptyString). rewrite append_empty in K. exact K.
  - intros t. rewrite !append_assoc. apply K.
Qed.

Lemma window_app (w t : string) :
  window w -> Text.four_digits (w ++ t) = Some t.
Proof.
  intros H. apply four_digits_split in H as (w' & E & _ & K).
  rewrite append_empty in E. subst w'. apply K.
Qed.

Lemma window_not_empty (w : string) : window w -> w <> EmptyString.
Proof.
  intros H ->. discriminate H.
Qed.

(** Four ASCII digits are a window, and a window of ASCII characters is four
    ASCII digits. *)
Lemma window_of_digits (a b c d : ascii) :
  Text.is_digit a = true -> Text.is_digit b = true ->
  Text.is_digit c = true -> Text.is_digit d = true ->
  window (digits4 a b c d).
Proof.
  intros Ha Hb Hc Hd. unfold window, Text.four_digits, digits4.
  rewrite (@digit_ascii a _ (@is_digit_ascii a Ha)), Ha.
  rewrite (@digit_ascii b _ (@is_digit_ascii b Hb)), Hb.
  rewrite (@digit_ascii c _ (@is_digit_ascii c Hc)), Hc.
  now rewrite (@digit_ascii d _ (@is_digit_ascii d Hd)), Hd.
Qed.

Lemma all_digits_ascii_only (w : string) :
  Text.all_digits w = true -> ascii_only w = true.
Proof.
  unfold ascii_only. induction w as [| a w IH]; simpl; [reflexivity |].
  rewrite andb_true_iff. intros [Ha Hw].
  now rewrite (@is_digit_ascii a Ha), IH.
Qed.

Lemma window_ascii (w : string) :
  window w -> ascii_only w = true ->
  exists a b c d, w = digits4 a b c d
    /\ Text.is_digit a = true /\ Text.is_digit b = true
    /\ Text.is_digit c = true /\ Text.is_digit d = true.
Proof.
  unfold window, Text.four_digits, ascii_only.
  destruct w as [| a w]; [discriminate |]. simpl forallb.
  intros H A. apply andb_true_iff in A as [Aa A].
  rewrite (@digit_ascii a _ Aa) in H.
  destruct (Text.is_digit a) eqn:Ha; [| discriminate].
  destruct w as [| b w]; [discriminate |]. simpl forallb in A.
  apply andb_true_iff in A as [Ab A].
  rewrite (@digit_ascii b _ Ab) in H.
  destruct (Text.is_digit b) eqn:Hb; [| discriminate].
  destruct w as [| c w]; [discriminate |]. simpl forallb in A.
  apply andb_true_iff in A as [Ac A].
  rewrite (@digit_ascii c _ Ac) in H.
  destruct (Text.is_digit c) eqn:Hc; [| discriminate].
  destruct w as [| d w]; [discriminate |]. simpl forallb in A.
  apply andb_true_iff in A as [Ad A].
  rewrite (@digit_ascii d _ Ad) in H.
  destruct (Text.is_digit d) eqn:Hd; [| discriminate].
  inversion H; subst w. exists a, b, c, d. auto.
Qed.

(** The first byte of a window is a digit or starts a longer character: it
    is no sign. *)
Lemma window_strip_sign (w : string) :
  window w -> Cast.strip_sign w = (false, w).
Proof.
  unfold window, Text.four_digits. destruct w as [| a w]; [discriminate |].
  destruct (N_of_ascii a <? 128)%N eqn:Aa.
  - rewrite (@digit_ascii a _ Aa).
    destruct (Text.is_digit a) eqn:Ha; [| discriminate].
    intros _. now apply strip_sign_digit.
  - intros _.
    destruct a as [[] [] [] [] [] [] [] []]; try discriminate Aa; reflexivity.
Qed.

(** The strict cast on a window: the number written when the four digits
    are ASCII digits, no number otherwise. *)
Lemma parse_i32_window (w : string) :
  window w ->
  Cast.parse_i32 w
  = if Text.all_digits w then Some (Z.of_N (Text.digits_value w)) else None.
Proof.
  intros Hw. destruct (Text.all_digits w) eqn:D.
  - destruct (@window_ascii _ Hw (@all_digits_ascii_only _ D))
      as (a & b & c & d & -> & Ha & Hb & Hc & Hd).
    rewrite parse_i32_digits4 by assumption. f_equal.
    unfold year_number, digits4, Text.digits_value.
    cbn [Text.digits_value_from]. lia.
  - unfold Cast.parse_i32. rewrite (@window_strip_sign _ Hw).
    destruct w as [| a w]; [now apply window_not_empty in Hw |].
    now rewrite D.
Qed.

Lemma str_extract_d4_cons (x : ascii) (s : string) :
  Text.str_extract_d4 (String x s)
  = match Text.four_digits (String x s) with
    | Some rest =>
        Some (substring 0 (String.length (String x s) - String.length rest)
                        (String x s))
    | None => Text.str_extract_d4 s
    end.
Proof. reflexivity. Qed.

Lemma Forall2_Forall_l {A B : Type} (P : A -> B -> Prop) (Q : A -> Prop)
    (l : list A) (out : list B) :
  (forall a b, P a b -> Q a) -> Forall2 P l out -> Forall Q l.
Proof.
  intros HPQ; induction 1; constructor; eauto.
Qed.

Lemma Forall2_length {A B : Type} (P : A -> B -> Prop) (l : list A)
    (out : list B) :
  Forall2 P l out -> List.length l = List.length out.
Proof.
  induction 1; simpl; congruence.
Qed.

(** The extraction returns the leftmost window. *)
Lemma str_extract_d4_match (s r : string) :
  Text.four_digits s = Some r ->
  Text.str_extract_d4 s
  = Some (substring 0 (String.length s - String.length r) s).
Proof.
  destruct s as [| x s]; [discriminate |].
  intros H. now rewrite str_extract_d4_cons, H.
Qed.

Lemma str_extract_d4_leftmost (pre w post : string) :
  window w ->
  (forall pre' w' post',
      (pre ++ w ++ post = pre' ++ w' ++ post')%string ->
      window w' -> (String.length pre <= String.length pre')%nat) ->
  Text.str_extract_d4 (pre ++ w ++ post) = Some w.
Proof.
  intros Hw. induction pre as [| x pre IH]; intros Hleft.
  - change (EmptyString ++ w ++ post)%string with (w ++ post)%string.
    rewrite (@str_extract_d4_match _ post) by (now apply window_app).
    now rewrite substring_prefix.
  - change (String x pre ++ w ++ post)%string
      with (String x (pre ++ w ++ post)) in *.
    rewrite str_extract_d4_cons.
    destruct (Text.four_digits (String x (pre ++ w ++ post))) as [r |] eqn:F.
    + apply four_digits_split in F as (w' & E & Hw' & _).
      assert (S (String.length pre) <= 0)%nat; [| lia].
      apply (Hleft EmptyString w' r); [exact E | exact Hw'].
    + apply IH. intros pre' w' post' E Hw'.
      apply le_S_n.
      apply (Hleft (String x pre') w' post'); [| exact Hw'].
      simpl. now rewrite E.
Qed.

Lemma str_extract_d4_none (s : string) :
  (forall pre w post, s = (pre ++ w ++ post)%string -> ~ window w) ->
  Text.str_extract_d4 s = None.
Proof.
  induction s as [| x s IH]; intros Hno; [reflexivity |].
  rewrite str_extract_d4_cons.
  destruct (Text.four_digits (String x s)) as [r |] eqn:F.
  - apply four_digits_split in F as (w & E & Hw & _).
    exfalso. exact (Hno EmptyString w r E Hw).
  - apply IH. intros pre w post E.
    apply (Hno (String x pre) w post). simpl. now rewrite E.
Qed.

(** What is extracted is a window of the text. *)
Lemma str_extract_d4_Some (s d : string) :
  Text.str_extract_d4 s = Some d ->
  window d /\ exists pre post, s = (pre ++ d ++ post)%string.
Proof.
  induction s as [| x s IH]; [discriminate |].
  rewrite str_extract_d4_cons.
  destruct (Text.four_digits (String x s)) as [r |] eqn:F.
  - apply four_digits_split in F as (w & E & Hw & _).
    rewrite E, substring_prefix. intros H; inversion H; subst d.
    split; [exact Hw |]. now exists EmptyString, r.
  - intros H. apply IH in H as (Hw & pre & post & ->).
    split; [exact Hw |]. now exists (String x pre), post.
Qed.

Lemma ascii_only_app (a b : string) :
  ascii_only (a ++ b) = ascii_only a && ascii_only b.
Proof.
  unfold ascii_only. induction a as [| x a IH]; simpl; [reflexivity |].
  now rewrite IH, andb_assoc.
Qed.

(** The strict cast of what is extracted: the year converts, or the cast
    raises on the column. *)
Lemma year_of_cases (v : option string) :
  (year_converts v = true /\ exists y, year_of v = Ok y)
  \/ (year_converts v = false
      /\ year_of v = Err (ConversionError "unicorn_month")).
Proof.
  unfold year_converts, year_of, cast_i32.
  destruct (str_extract_d4 v) as [d |] eqn:E; [| left; eauto].
  assert (Hw : window d).
  { destruct v as [s |]; [| discriminate].
    now apply str_extract_d4_Some in E as [Hw _]. }
  rewrite (parse_i32_window Hw).
  destruct (Text.all_digits d); [left | right]; eauto.
Qed.

Lemma year_of_Ok_converts (v : option string) :
  (exists y, year_of v = Ok y) <-> year_converts v = true.
Proof.
  destruct (year_of_cases v) as [[C (y & H)] | [C H]]; rewrite C, H.
  - split; eauto.
  - split; [intros (y & E); discriminate | discriminate].
Qed.

Lemma year_of_Err_inv (v : option string) (e : error) :
  year_of v = Err e ->
  e = ConversionError "unicorn_month" /\ year_converts v = false.
Proof.
  destruct (year_of_cases v) as [[C (y & H)] | [C H]]; rewrite H.
  - discriminate.
  - intros E; inversion E; auto.
Qed.

(** A month text of ASCII characters never makes the cast raise. *)
Lemma year_converts_ascii_only (s : string) :
  ascii_only s = true -> year_converts (Some s) = true.
Proof.
  intros A. unfold year_converts. simpl.
  destruct (Text.str_extract_d4 s) as [d |] eqn:E; [| reflexivity].
  apply str_extract_d4_Some in E as (Hw & pre & post & ->).
  rewrite !ascii_only_app, !andb_true_iff in A. destruct A as (_ & A & _).
  destruct (window_ascii Hw A) as (a & b & c & d' & -> & Ha & Hb & Hc & Hd).
  simpl. now rewrite Ha, Hb, Hc, Hd.
Qed.

Lemma year_of_range (v : option string) (y : Z) :
  year_of v = Ok (Some y) -> 0 <= y <= 9999.
Proof.
  unfold year_of, cast_i32.
  destruct (str_extract_d4 v) as [d |] eqn:E; [| discriminate].
  assert (Hw : window d).
  { destruct v as [s |]; [| discriminate].
    now apply str_extract_d4_Some in E as [Hw _]. }
  rewrite (parse_i32_window Hw).
  destruct (Text.all_digits d) eqn:D; [| discriminate].
  destruct (window_ascii Hw (all_digits_ascii_only _ D))
    as (a & b & c & d' & -> & Ha & Hb & Hc & Hd).
  intros H; inversion H; subst y.
  apply is_digit_val in Ha, Hb, Hc, Hd.
  unfold digits4, Text.digits_value. cbn [Text.digits_value_from]. lia.
Qed.

(** ** How [prepare_dataset] fails *)

Lemma mapM_Err_Exists {A B : Type} (f : A -> result B) (l : list A) (e : error) :
  mapM f l = Err e -> Exists (fun a => f a = Err e) l.
Proof.
  induction l as [| a l IH]; simpl; [discriminate |].
  destruct (f a) as [b | e'] eqn:E; simpl.
  - destruct (mapM f l) as [bs | e'']; simpl; [discriminate |].
    intros H. apply Exists_cons_tl, IH. congruence.
  - intros H. apply Exists_cons_hd. congruence.
Qed.

Lemma currency_Err_inv (column : string) (v : option string) (e : error) :
  currency column v = Err e -> e = ConversionError column /\ converts v = false.
Proof.
  unfold currency, converts, cast_f64.
  destruct (substitute v) as [s |]; simpl; [| discriminate].
  destruct (Cast.parse_f64 s); simpl; [discriminate |].
  intros H; inversion H; auto.
Qed.

Lemma Forall2_In_r {A B : Type} (P : A -> B -> Prop) (l : list A)
    (out : list B) (b : B) :
  Forall2 P l out -> In b out -> exists a, In a l /\ P a b.
Proof.
  induction 1 as [| a b' l out Hab _ IH]; simpl; [contradiction |].
  intros [<- | Hin]; [eauto |].
  destruct (IH Hin) as (a' & Ha' & Hp); eauto.
Qed.

(** The three casts are made one column after the other: an error names the
    first column, in that order, that holds a text that does not convert on
    a kept row. *)
Lemma prepare_dataset_Err_inv (df : list RawRow) (e : error) :
  prepare_dataset df = Err e ->
  (e = ConversionError "raised_usd"
   /\ Exists (fun r => converts (raised_usd r) = false) (List.filter passes df))
  \/ (e = ConversionError "valuation_usd"
      /\ Forall (fun r => converts (raised_usd r) = true) (List.filter passes df)
      /\ Exists (fun r => converts (valuation_usd r) = false)
                (List.filter passes df))
  \/ (e = ConversionError "unicorn_month"
      /\ Forall (fun r => converts (raised_usd r) = true
                          /\ converts (valuation_usd r) = true)
                (List.filter passes df)
      /\ Exists (fun r => year_converts (unicorn_month r) = false)
                (List.filter passes df)).
Proof.
  unfold prepare_dataset. cbv zeta.
  rewrite df_filter_map. simpl status.
  rewrite df_filter_twice.
  change (List.filter (fun r => holds _ r && holds _ r) df)
    with (List.filter passes df).
  generalize (List.filter passes df) as l; intros l.
  match goal with
  | |- context [mapM ?f (map ?g l)] =>
      destruct (mapM f (map g l)) as [d0 | e0] eqn:E0; simpl
  end.
  - apply mapM_Ok_iff, Forall2_map_l in E0.
    assert (R0 : Forall (fun r => converts (raised_usd r) = true) l).
    { revert E0. apply Forall2_Forall_l. intros r' a' Hra'.
      apply bind_Ok_inv in Hra' as (x' & Hx' & _).
      eapply currency_Ok_converts. eauto. }
    match goal with
    | |- context [mapM ?f d0] =>
        destruct (mapM f d0) as [d1 | e1] eqn:E1; simpl
    end.
    + match goal with
      | |- context [mapM ?f d1] =>
          destruct (mapM f d1) as [d2 | e2] eqn:E2; simpl; [discriminate |]
      end.
      intros H; inversion H; subst e2; clear H. right; right.
      apply mapM_Ok_iff in E1.
      apply mapM_Err_Exists, Exists_exists in E2 as (c & Hc & Hce).
      destruct (year_of (unicorn_month c)) as [y | e'] eqn:Ey;
        simpl in Hce; [discriminate |].
      inversion Hce; subst e'; clear Hce.
      apply year_of_Err_inv in Ey as [-> Hy].
      split; [reflexivity | split].
      * apply Forall_forall. intros r Hr. split.
        -- rewrite Forall_forall in R0. now apply R0.
        -- destruct (@Forall2_In_l _ _ _ _ _ r E0 Hr) as (b & Hb & Hrb).
           destruct (@Forall2_In_l _ _ _ _ _ b E1 Hb) as (c' & _ & Hbc).
           apply bind_Ok_inv in Hrb as (x & _ & Hrb).
           inversion Hrb; subst b; clear Hrb.
           apply bind_Ok_inv in Hbc as (v & Hv & _). simpl in Hv.
           eapply currency_Ok_converts. eauto.
      * destruct (@Forall2_In_r _ _ _ _ _ c E1 Hc) as (b & Hb & Hbc).
        destruct (@Forall2_In_r _ _ _ _ _ b E0 Hb) as (r & Hr & Hrb).
        apply bind_Ok_inv in Hrb as (x & _ & Hrb).
        inversion Hrb; subst b; clear Hrb.
        apply bind_Ok_inv in Hbc as (v & _ & Hbc).
        inversion Hbc; subst c; clear Hbc. simpl in Hy.
        apply Exists_exists. eauto.
    + intros H; inversion H; subst e1; clear H. right; left.
      apply mapM_Err_Exists, Exists_exists in E1 as (a & Hin & Ha).
      destruct (@Forall2_In_r _ _ _ _ _ a E0 Hin) as (r & Hr & Hra).
      apply bind_Ok_inv in Hra as (x & Hx & Hra).
      inversion Hra; subst a; clear Hra. simpl in Ha.
      destruct (currency "valuation_usd" (valuation_usd r)) as [v | e'] eqn:Ev;
        simpl in Ha; [discriminate |].
      inversion Ha; subst e'; clear Ha.
      apply currency_Err_inv in Ev as [-> Hv].
      split; [reflexivity | split; [exact R0 |]].
      apply Exists_exists. eauto.
  - intros H; inversion H; subst e0; clear H. left.
    apply mapM_Err_Exists, Exists_exists in E0 as (a & Hin & Ha).
    apply in_map_iff in Hin as (r & <- & Hr). simpl in Ha.
    destruct (currency "raised_usd" (raised_usd r)) as [v | e'] eqn:Ev;
      simpl in Ha; [discriminate |].
    inversion Ha; subst e'; clear Ha.
    apply currency_Err_inv in Ev as [-> Hv].
    split; [reflexivity |]. apply Exists_exists. eauto.
Qed.

Lemma prepare_dataset_Ok_converts (df : list RawRow) (out : list PreparedRow) :
  prepare_dataset df = Ok out ->
  Forall (fun r => converts (raised_usd r) = true
                   /\ converts (valuation_usd r) = true
                   /\ year_converts (unicorn_month r) = true)
         (List.filter passes df).
Proof.
  intros H. apply prepare_dataset_Ok_iff in H.
  revert H. apply Forall2_Forall_l.
  intros r p (_ & _ & _ & _ & Hr & Hv & _ & Hy).
  repeat split;
    [eapply currency_Ok_converts | eapply currency_Ok_converts
     | eapply year_of_Ok_converts]; eauto.
Qed.

Lemma Forall_Exists_false {A : Type} (f : A -> bool) (l : list A) :
  Forall (fun a => f a = true) l -> Exists (fun a => f a = false) l -> False.
Proof.
  intros HF HE. apply Exists_exists in HE as (a & Hin & Ha).
  rewrite Forall_forall in HF. specialize (HF a Hin). congruence.
Qed.

(** What the money expression gives when it does not raise: the number that
    the substituted text writes, times [1 / 1e9]. *)
Lemma currency_Ok_inv (column s : string) (v : option F64.t) :
  currency column (Some s) = Ok v ->
  exists t x, substitute (Some s) = Some t
              /\ Cast.parse_f64 t = Some x
              /\ v = Some (F64.mul x scale).
Proof.
  unfold currency, cast_f64.
  destruct (substitute (Some s)) as [t |] eqn:E; [| discriminate E].
  destruct (Cast.parse_f64 t) as [x |] eqn:P; simpl; [| discriminate].
  intros H; inversion H. eauto.
Qed.

Lemma converts_false (s t : string) :
  substitute (Some s) = Some t -> Cast.parse_f64 t = None ->
  converts (Some s) = false.
Proof.
  unfold converts. intros -> ->. reflexivity.
Qed.

(** The rows that the filters drop take no part in the casts. *)
Lemma prepare_dataset_kept_rows (df : list RawRow) :
  prepare_dataset df = prepare_dataset (List.filter passes df).
Proof.
  unfold prepare_dataset. cbv zeta.
  rewrite !df_filter_map. simpl status.
  rewrite !df_filter_twice.
  change (fun r : Row (option string) (option string) unit =>
            holds (fun r0 => is_in (country r0) european_countries) r
            && holds (fun r0 => is_in (status r0) ["Active"; "Exited"]) r)
    with passes.
  assert (I : forall (A : Type) (f : A -> bool) (l : list A),
             List.filter f (List.filter f l) = List.filter f l).
  { intros A f l. induction l as [| a l IH]; simpl; [reflexivity |].
    destruct (f a) eqn:E; simpl; rewrite ?E, IH; reflexivity. }
  now rewrite I.
Qed.

(** C1 (as the code has it).  A malformed money text is never treated as
    zero and always aborts the load.  When a row that passes the country
    and status filters has a [raised_usd] or [valuation_usd] text that is
    not a number after the substitutions, the strict cast raises and
    [prepare_dataset] fails with the conversion error of one of the two
    columns, whatever the other rows hold.  And when [prepare_dataset]
    returns, every money text of a kept row was a number after the
    substitutions, and the prepared value is that number times [1 / 1e9]:
    no value stands for a text that could not be read.  Only the rows kept
    count: a row that the filters drop changes nothing, malformed or not. *)
Theorem malformed_text_aborts :
  (forall (df : list RawRow) (r : RawRow) (s t : string),
      In r df -> passes r = true ->
      raised_usd r = Some s \/ valuation_usd r = Some s ->
      substitute (Some s) = Some t -> Cast.parse_f64 t = None ->
      prepare_dataset df = Err (ConversionError "raised_usd")
      \/ prepare_dataset df = Err (ConversionError "valuation_usd"))
  /\ (forall (df : list RawRow) (out : list PreparedRow),
         prepare_dataset df = Ok out ->
         Forall2 (fun r p =>
                    (forall s, raised_usd r = Some s ->
                       exists t x, substitute (Some s) = Some t
                                   /\ Cast.parse_f64 t = Some x
                                   /\ raised_usd p = Some (F64.mul x scale))
                    /\ (forall s, valuation_usd r = Some s ->
                          exists t x, substitute (Some s) = Some t
                                      /\ Cast.parse_f64 t = Some x
                                      /\ valuation_usd p
                                         = Some (F64.mul x scale)))
                 (List.filter passes df) out)
  /\ (forall (df : list RawRow) (r : RawRow),
         passes r = false -> prepare_dataset (r :: df) = prepare_dataset df).
Proof.
  split; [| split].
  - intros df r s t Hin Hp Hs Ht Hparse.
    pose proof (@converts_false s t Ht Hparse) as C.
    assert (K : In r (List.filter passes df)) by (now apply filter_In).
    destruct (prepare_dataset df) as [out | e] eqn:E.
    + exfalso. apply prepare_dataset_Ok_converts in E.
      rewrite Forall_forall in E. destruct (E r K) as (Cr & Cv & _).
      destruct Hs as [Hs | Hs]; rewrite Hs in *; congruence.
    + apply prepare_dataset_Err_inv in E
        as [[-> _] | [(-> & _) | (-> & F & _)]]; auto.
      exfalso. rewrite Forall_forall in F. destruct (F r K) as (Cr & Cv).
      destruct Hs as [Hs | Hs]; rewrite Hs in *; congruence.
  - intros df out H. apply prepare_dataset_Ok_iff in H.
    revert H. apply Forall2_impl.
    intros r p (_ & _ & _ & _ & Hr & Hv & _). split.
    + intros s Hs. rewrite Hs in Hr. apply currency_Ok_inv in Hr. exact Hr.
    + intros s Hs. rewrite Hs in Hv. apply currency_Ok_inv in Hv. exact Hv.
  - intros df r Hr.
    rewrite (prepare_dataset_kept_rows (r :: df)), (prepare_dataset_kept_rows df).
    simpl. now rewrite Hr.
Qed.

Lemma malformed_text_aborts_witness :
  prepare_dataset malformed_table = Err (ConversionError "raised_usd")
  \/ prepare_dataset malformed_table = Err (ConversionError "valuation_usd").
Proof.
  apply (proj1 malformed_text_aborts malformed_table
           (raw_row "Acme" "France" "AI" "Active" "abc" "$1B" "March 2015")
           "abc" "abc");
    [simpl; auto | reflexivity | left; reflexivity | reflexivity
     | reflexivity].
Defined.

(** C1, counterexample.  The text "abc" is not "N/A" and is not a number
    after the substitutions.  The table that holds it on a kept row is not
    prepared: the cast of [raised_usd] raises, and the second row, which is
    well formed and is prepared when it stands alone, is lost with it. *)
Lemma malformed_row_aborts :
  substitute (Some "abc") = Some "abc"
  /\ Cast.parse_f64 "abc" = None
  /\ Forall (fun r => passes r = true) malformed_table
  /\ prepare_dataset malformed_table = Err (ConversionError "raised_usd")
  /\ ~ (exists out, prepare_dataset malformed_table = Ok out)
  /\ (exists p, prepare_dataset (tl malformed_table) = Ok [p]
                /\ raised_usd p = Some f_1_5).
Proof.
  split; [reflexivity | split; [reflexivity | split]].
  - repeat constructor.
  - assert (E : prepare_dataset malformed_table
                = Err (ConversionError "raised_usd"))
      by (vm_compute; reflexivity).
    split; [exact E | split].
    + intros (out & H). rewrite E in H. discriminate.
    + eexists. split; vm_compute; reflexivity.
Qed.

(** C5 (as the code has it).  In the prepared table the country of a row is
    "UK" or one of the 27 entries of the list other than "United Kingdom",
    and its status is "Active" or "Exited".  The list itself has 28 entries,
    "United Kingdom" among them.  The prepared rows are, one for one and in
    order, the rows read whose country is in the list and whose status is
    one of the two; every other row is dropped. *)
Theorem prepared_rows_country_status (df : list RawRow) (out : list PreparedRow) :
  prepare_dataset df = Ok out ->
  Forall (fun p => prepared_country (country p) /\ prepared_status (status p))
         out
  /\ Forall2 prepared_from (List.filter passes df) out
  /\ List.length out = List.length (List.filter passes df)
  /\ (forall r, passes r = true <->
                (exists c, country r = Some c /\ In c european_countries)
                /\ prepared_status (status r))
  /\ List.length european_countries = 28%nat.
Proof.
  intros H. apply prepare_dataset_Ok_iff in H.
  split; [| split; [exact H | split; [| split]]].
  - apply Forall2_filter_l in H. revert H. apply Forall2_Forall_r.
    intros r p [Hr Hp]. now apply (prepared_from_passes Hr).
  - symmetry. eapply Forall2_length; eassumption.
  - exact passes_iff.
  - reflexivity.
Qed.

Lemma prepared_rows_country_status_witness :
  prepare_dataset sample_table = Ok sample_prepared
  /\ Forall (fun p => prepared_country (country p) /\ prepared_status (status p))
            sample_prepared.
Proof.
  assert (E : prepare_dataset sample_table = Ok sample_prepared)
    by (vm_compute; reflexivity).
  split; [exact E |].
  exact (proj1 (prepared_rows_country_status sample_table E)).
Defined.

(** C5, counterexample.  A row read with the country "United Kingdom" is
    prepared with the country "UK", which is not an entry of the list; and
    the list does not have 27 entries. *)
Lemma uk_row_outside_list :
  exists p, prepare_dataset uk_table = Ok [p]
            /\ country p = Some "UK"
            /\ ~ In "UK" european_countries
            /\ List.length european_countries <> 27%nat.
Proof.
  eexists. split; [vm_compute; reflexivity |].
  split; [reflexivity |]. split; [| discriminate].
  simpl. intros H.
  repeat (destruct H as [H | H]; [discriminate |]). contradiction.
Qed.

(** C9.  "United Kingdom" is the country of no row of the prepared table,
    and "UK" is the country of some row as soon as a row read has the country
    "United Kingdom" and a status that passes the filter. *)
Theorem united_kingdom_renamed (df : list RawRow) (out : list PreparedRow) :
  prepare_dataset df = Ok out ->
  (forall p, In p out -> country p <> Some "United Kingdom")
  /\ ((exists r, In r df /\ country r = Some "United Kingdom"
                 /\ prepared_status (status r)) ->
      exists p, In p out /\ country p = Some "UK").
Proof.
  intros H. apply prepare_dataset_Ok_iff in H. split.
  - apply Forall2_filter_l in H.
    assert (F : Forall (fun p => prepared_country (country p)) out).
    { revert H. apply Forall2_Forall_r. intros r p [Hr Hp].
      now apply (prepared_from_passes Hr). }
    intros p Hin. rewrite Forall_forall in F.
    destruct (F p Hin) as [-> | (s & -> & _ & Hs)]; [discriminate |].
    intros E; inversion E; contradiction.
  - intros (r & Hin & Hc & Hs).
    assert (Hp : passes r = true).
    { apply passes_iff. split; trivial.
      exists "United Kingdom". split; trivial.
      simpl. repeat (try (left; reflexivity); right). }
    assert (Hf : In r (List.filter passes df)) by (apply filter_In; auto).
    destruct (@Forall2_In_l _ _ _ _ _ r H Hf) as (p & Hpin & Hrp).
    exists p. split; trivial.
    destruct Hrp as (_ & Hco & _). rewrite Hco, Hc. reflexivity.
Qed.

Lemma united_kingdom_renamed_witness :
  prepare_dataset sample_table = Ok sample_prepared
  /\ (forall p, In p sample_prepared -> country p <> Some "United Kingdom")
  /\ exists p, In p sample_prepared /\ country p = Some "UK".
Proof.
  assert (E : prepare_dataset sample_table = Ok sample_prepared)
    by (vm_compute; reflexivity).
  destruct (united_kingdom_renamed sample_table E) as [H1 H2].
  split; [exact E | split; [exact H1 |]].
  apply H2.
  exists (raw_row "Revolut" "United Kingdom" "Fintech" "Active" "$1.7B" "$33B"
                  "April 2018").
  split; [simpl; auto | split; [reflexivity | left; reflexivity]].
Defined.

Lemma filtered_df_Subseq (df : list PreparedRow) (location industry : string)
    (year_1b : Z * Z) :
  Subseq (filtered_df df location industry year_1b) df.
Proof.
  unfold filtered_df, df_filter.
  eapply Subseq_trans; [apply Subseq_filter |].
  destruct (negb (String.eqb industry "All")).
  - eapply Subseq_trans; [apply Subseq_filter |].
    destruct (String.eqb location "All");
      [apply Subseq_refl | apply Subseq_filter].
  - destruct (String.eqb location "All");
      [apply Subseq_refl | apply Subseq_filter].
Qed.

(** C10.  No step reorders rows: the prepared rows are the prepared forms
    of a subsequence of the rows read, in the same order, and every filtered
    view is a subsequence of the prepared table. *)
Theorem row_order_preserved (df : list RawRow) (out : list PreparedRow) :
  prepare_dataset df = Ok out ->
  (exists kept, Subseq kept df /\ Forall2 prepared_from kept out)
  /\ (forall location industry year_1b,
         Subseq (filtered_df out location industry year_1b) out).
Proof.
  intros H. apply prepare_dataset_Ok_iff in H. split.
  - exists (List.filter passes df). split; [apply Subseq_filter | exact H].
  - intros. apply filtered_df_Subseq.
Qed.

Lemma row_order_preserved_witness :
  prepare_dataset sample_table = Ok sample_prepared
  /\ (exists kept, Subseq kept sample_table
                   /\ Forall2 prepared_from kept sample_prepared)
  /\ Subseq (filtered_df sample_prepared "France" "All" (2019, 2023))
            sample_prepared.
Proof.
  assert (E : prepare_dataset sample_table = Ok sample_prepared)
    by (vm_compute; reflexivity).
  destruct (row_order_preserved sample_table E) as [H1 H2].
  split; [exact E | split; [exact H1 | apply H2]].
Defined.

Lemma drop_app (pre t : string) :
  Text.drop (String.length pre) (pre ++ t) = t.
Proof.
  induction pre as [| x pre IH]; simpl; [now destruct t | exact IH].
Qed.

(** Where a window stands in a text, [\d{4}] matches. *)
Lemma window_position (s pre w post : string) :
  s = (pre ++ w ++ post)%string -> window w ->
  Text.four_digits (Text.drop (String.length pre) s) = Some post.
Proof.
  intros -> Hw. rewrite drop_app. now apply window_app.
Qed.

(** A text in which nothing is extracted holds no window. *)
Lemma str_extract_d4_None_inv (s pre w post : string) :
  Text.str_extract_d4 s = None -> s = (pre ++ w ++ post)%string -> ~ window w.
Proof.
  intros H -> Hw. revert H. induction pre as [| x pre IH].
  - change (EmptyString ++ w ++ post)%string with (w ++ post)%string.
    rewrite (@str_extract_d4_match _ post) by (now apply window_app).
    discriminate.
  - change (String x pre ++ w ++ post)%string
      with (String x (pre ++ w ++ post)).
    rewrite str_extract_d4_cons.
    destruct (Text.four_digits _); [discriminate | exact IH].
Qed.

Lemma filtered_df_has_year (df : list PreparedRow) (location industry : string)
    (year_1b : Z * Z) (p : PreparedRow) :
  In p (filtered_df df location industry year_1b) -> unicorn_year p <> None.
Proof.
  unfold filtered_df, df_filter. intros H.
  apply filter_In in H as [_ H]. unfold holds in H.
  intros E. rewrite E in H. discriminate.
Qed.

(** C7 (as the code has it).  The digits that [\d] finds are the decimal
    digits of every script.  The year of a text is read at the leftmost
    position at which four decimal digits stand in a row: when the four are
    ASCII digits the year is the number they write (in "March 2015", 2015);
    when one of them is a digit of another script the strict cast raises.
    When the text holds no four decimal digits in a row (as "Unknown"), or
    is null, the year is null, not zero.  A text of ASCII characters never
    raises.  The year column of the prepared table is derived this way, row
    by row, from the [unicorn_month] of the rows kept; a kept row on which
    the cast raises leaves no prepared table at all; and a row with a null
    year is in no filtered view, whatever the bounds of the year range. *)
Theorem unicorn_year_first_four_digits :
  (forall pre a b c d post,
      Text.is_digit a = true -> Text.is_digit b = true ->
      Text.is_digit c = true -> Text.is_digit d = true ->
      (forall pre' w post',
          (pre ++ digits4 a b c d ++ post = pre' ++ w ++ post')%string ->
          window w -> (String.length pre <= String.length pre')%nat) ->
      year_of (Some (pre ++ digits4 a b c d ++ post)%string)
      = Ok (Some (year_number a b c d)))
  /\ (forall pre w post,
         window w -> Text.all_digits w = false ->
         (forall pre' w' post',
             (pre ++ w ++ post = pre' ++ w' ++ post')%string ->
             window w' -> (String.length pre <= String.length pre')%nat) ->
         year_of (Some (pre ++ w ++ post)%string)
         = Err (ConversionError "unicorn_month"))
  /\ (forall s,
         (forall pre w post, s = (pre ++ w ++ post)%string -> ~ window w) ->
         year_of (Some s) = Ok None)
  /\ (forall s, ascii_only s = true -> exists y, year_of (Some s) = Ok y)
  /\ year_of None = Ok None
  /\ year_of (Some "March 2015") = Ok (Some 2015)
  /\ year_of (Some "Unknown") = Ok None
  /\ (forall df out,
         prepare_dataset df = Ok out ->
         Forall2 (fun r p => unicorn_month p = unicorn_month r
                             /\ year_of (unicorn_month r) = Ok (unicorn_year p))
                 (List.filter passes df) out)
  /\ (forall df r e,
         In r df -> passes r = true -> year_of (unicorn_month r) = Err e ->
         exists e', prepare_dataset df = Err e')
  /\ (forall df location industry year_1b p,
         In p (filtered_df df location industry year_1b) ->
         unicorn_year p <> None).
Proof.
  split; [| split; [| split; [| split; [| split; [| split; [| split;
    [| split; [| split]]]]]]]].
  - intros pre a b c d post Ha Hb Hc Hd Hleft. unfold year_of, str_extract_d4.
    rewrite str_extract_d4_leftmost
      by (trivial; now apply window_of_digits).
    simpl. now rewrite parse_i32_digits4.
  - intros pre w post Hw Hd Hleft. unfold year_of, str_extract_d4, cast_i32.
    rewrite str_extract_d4_leftmost by assumption.
    now rewrite (parse_i32_window Hw), Hd.
  - intros s Hno. unfold year_of, str_extract_d4.
    now rewrite str_extract_d4_none.
  - intros s A. apply year_of_Ok_converts. now apply year_converts_ascii_only.
  - reflexivity.
  - reflexivity.
  - reflexivity.
  - intros df out H. apply prepare_dataset_Ok_iff in H.
    revert H. apply Forall2_impl.
    intros r p (_ & _ & _ & _ & _ & _ & Hm & Hy). auto.
  - intros df r e Hin Hp He.
    destruct (prepare_dataset df) as [out | e'] eqn:E; [exfalso | eauto].
    apply prepare_dataset_Ok_converts in E. rewrite Forall_forall in E.
    destruct (E r) as (_ & _ & Hy); [now apply filter_In |].
    apply year_of_Ok_converts in Hy as (y & Hy). congruence.
  - apply filtered_df_has_year.
Qed.

Lemma unicorn_year_first_four_digits_witness :
  year_of (Some ("March " ++ digits4 "2" "0" "1" "5" ++ "")%string)
  = Ok (Some (year_number "2" "0" "1" "5"))
  /\ year_of (Some ("Q3 " ++ "٢٠١٥" ++ "")%string)
     = Err (ConversionError "unicorn_month")
  /\ year_of (Some "Unknown") = Ok None
  /\ (exists y, year_of (Some "March 2015") = Ok y)
  /\ Forall2 (fun r p => unicorn_month p = unicorn_month r
                         /\ year_of (unicorn_month r) = Ok (unicorn_year p))
             (List.filter passes sample_table) sample_prepared
  /\ (exists e, prepare_dataset arabic_year_table = Err e)
  /\ Forall (fun p => unicorn_year p <> None)
            (filtered_df sample_prepared "All" "All" (2018, 2023)).
Proof.
  destruct unicorn_year_first_four_digits
    as (H1 & H2 & H3 & H4 & _ & _ & _ & H8 & H10 & H9).
  split; [| split; [| split; [| split; [| split; [| split]]]]].
  - apply H1; try reflexivity. clear.
    intros pre' w post' E Hw.
    pose proof (@window_position _ _ _ _ E Hw) as P.
    destruct (Nat.le_gt_cases 6 (String.length pre')) as [L | L];
      [exact L | exfalso].
    destruct (String.length pre') as [| [| [| [| [| [| n]]]]]];
      try lia; vm_compute in P; discriminate P.
  - apply H2; try reflexivity. clear.
    intros pre' w post' E Hw.
    pose proof (@window_position _ _ _ _ E Hw) as P.
    destruct (Nat.le_gt_cases 3 (String.length pre')) as [L | L];
      [exact L | exfalso].
    destruct (String.length pre') as [| [| [| n]]];
      try lia; vm_compute in P; discriminate P.
  - apply H3. clear. intros pre w post E.
    now apply (@str_extract_d4_None_inv "Unknown" pre w post).
  - apply H4. reflexivity.
  - apply (H8 sample_table). vm_compute; reflexivity.
  - apply (H10 arabic_year_table
             (raw_row "Swvl" "France" "Mobility" "Active" "$1B" "$2B" "٢٠١٥")
             (ConversionError "unicorn_month"));
      [simpl; auto | reflexivity | reflexivity].
  - apply Forall_forall. intros p. apply H9.
Defined.

(** C7, counterexample.  The text "٢٠١٥" is four decimal digits, none of
    them an ASCII digit: the year is neither the number 2015 nor null, the
    cast raises.  In "201٥ 2016" the first four decimal digits are "201٥":
    the cast raises although the text holds the ASCII year 2016.  A kept row
    with such a text aborts the whole preparation. *)
Lemma non_ascii_digits_raise :
  window "٢٠١٥"
  /\ Text.str_extract_d4 "٢٠١٥" = Some "٢٠١٥"
  /\ year_of (Some "٢٠١٥") = Err (ConversionError "unicorn_month")
  /\ Text.str_extract_d4 "201٥ 2016" = Some "201٥"
  /\ year_of (Some "201٥ 2016") = Err (ConversionError "unicorn_month")
  /\ prepare_dataset arabic_year_table = Err (ConversionError "unicorn_month")
  /\ prepare_dataset mixed_year_table = Err (ConversionError "unicorn_month")
  /\ ~ (exists out, prepare_dataset arabic_year_table = Ok out).
Proof.
  repeat split; try (vm_compute; reflexivity).
  intros (out & H).
  assert (E : prepare_dataset arabic_year_table
              = Err (ConversionError "unicorn_month"))
    by (vm_compute; reflexivity).
  rewrite E in H. discriminate.
Qed.

(** ** The filters of [main] over the full year range *)

Lemma years_In (df : list PreparedRow) (y : Z) :
  In y (years df) <-> exists p, In p df /\ unicorn_year p = Some y.
Proof.
  induction df as [| p df IH]; simpl.
  - split; [contradiction | intros (p & [] & _)].
  - destruct (unicorn_year p) as [z |] eqn:E; simpl; rewrite IH; split.
    + intros [<- | (q & Hq & Hy)]; eauto.
    + intros (q & [<- | Hq] & Hy); [left; congruence | eauto].
    + intros (q & Hq & Hy); eauto.
    + intros (q & [<- | Hq] & Hy); [congruence | eauto].
Qed.

Lemma fold_opt_min_le (l : list Z) (acc : option Z) (lo : Z) :
  fold_left opt_min l acc = Some lo ->
  (forall y, In y l -> lo <= y) /\ (forall a, acc = Some a -> lo <= a).
Proof.
  revert acc; induction l as [| z l IH]; simpl; intros acc H.
  - split; [contradiction | intros a ->]. inversion H; lia.
  - apply IH in H as [H1 H2]. split.
    + intros y [<- | Hy]; [| auto].
      destruct acc as [a |]; simpl in H2.
      * specialize (H2 _ eq_refl). lia.
      * specialize (H2 _ eq_refl). lia.
    + intros a ->. simpl in H2. specialize (H2 _ eq_refl). lia.
Qed.

Lemma fold_opt_max_ge (l : list Z) (acc : option Z) (hi : Z) :
  fold_left opt_max l acc = Some hi ->
  (forall y, In y l -> y <= hi) /\ (forall a, acc = Some a -> a <= hi).
Proof.
  revert acc; induction l as [| z l IH]; simpl; intros acc H.
  - split; [contradiction | intros a ->]. inversion H; lia.
  - apply IH in H as [H1 H2]. split.
    + intros y [<- | Hy]; [| auto].
      destruct acc as [a |]; simpl in H2.
      * specialize (H2 _ eq_refl). lia.
      * specialize (H2 _ eq_refl). lia.
    + intros a ->. simpl in H2. specialize (H2 _ eq_refl). lia.
Qed.

(** C3 (as the code has it).  With both selectors on "All" and the year
    range set to the least and the greatest year of the table, the filters
    return the rows of the prepared table whose year is not null, in their
    order; the table comes back unchanged exactly when no row has a null
    year. *)
Theorem full_range_keeps_dated_rows (df : list PreparedRow) (lo hi : Z) :
  year_min df = Some lo -> year_max df = Some hi ->
  filtered_df df "All" "All" (lo, hi) = List.filter has_year df
  /\ (filtered_df df "All" "All" (lo, hi) = df <->
      Forall (fun p => unicorn_year p <> None) df).
Proof.
  intros Hlo Hhi.
  assert (E : filtered_df df "All" "All" (lo, hi) = List.filter has_year df).
  { unfold filtered_df, df_filter. simpl.
    apply filter_ext_in. intros p Hp. unfold holds, has_year. simpl.
    destruct (unicorn_year p) as [y |] eqn:Ey; simpl; [| reflexivity].
    assert (Hy : In y (years df)) by (apply years_In; eauto).
    apply fold_opt_min_le in Hlo as [Hlo _].
    apply fold_opt_max_ge in Hhi as [Hhi _].
    specialize (Hlo y Hy). specialize (Hhi y Hy).
    destruct (Z.leb_spec lo y); [| lia].
    destruct (Z.leb_spec y hi); [| lia]. reflexivity. }
  split; [exact E |]. rewrite E. clear.
  induction df as [| p df IH]; simpl.
  - split; [constructor | reflexivity].
  - unfold has_year at 1. destruct (unicorn_year p) as [y |] eqn:Ey.
    + split.
      * intros H. inversion H as [H']. rewrite H'.
        constructor; [congruence | now apply IH].
      * intros H. inversion H; subst. f_equal. now apply IH.
    + split.
      * intros H.
        assert (L : (List.length (List.filter has_year df)
                     <= List.length df)%nat) by apply filter_length_le.
        rewrite H in L. simpl in L. lia.
      * intros H. inversion H; subst. congruence.
Qed.

Lemma full_range_keeps_dated_rows_witness :
  year_min sample_prepared = Some 2018
  /\ year_max sample_prepared = Some 2023
  /\ filtered_df sample_prepared "All" "All" (2018, 2023)
     = List.filter has_year sample_prepared.
Proof.
  assert (Hlo : year_min sample_prepared = Some 2018) by (vm_compute; reflexivity).
  assert (Hhi : year_max sample_prepared = Some 2023) by (vm_compute; reflexivity).
  split; [exact Hlo | split; [exact Hhi |]].
  exact (proj1 (full_range_keeps_dated_rows sample_prepared Hlo Hhi)).
Defined.

(** C3, counterexample.  A prepared table with a row whose year is null:
    its least and greatest year are both 2015, and the filters over that full
    range return one row of its two. *)
Lemma full_range_drops_null_year :
  prepare_dataset null_year_table = Ok null_year_prepared
  /\ year_min null_year_prepared = Some 2015
  /\ year_max null_year_prepared = Some 2015
  /\ List.length null_year_prepared = 2%nat
  /\ List.length (filtered_df null_year_prepared "All" "All" (2015, 2015)) = 1%nat
  /\ filtered_df null_year_prepared "All" "All" (2015, 2015)
     <> null_year_prepared.
Proof.
  repeat split; try (vm_compute; reflexivity).
  intros E. apply (f_equal (@List.length _)) in E.
  vm_compute in E. discriminate.
Qed.

(** ** The worked example of the currency rule *)

(** The three constants are exact: 2^52 * 2^-53, 3 * 2^51 * 2^-52 and
    2^52 * 2^-51. *)
Lemma decimal_constants :
  f_0_5 = S754_finite false 4503599627370496 (-53)
  /\ f_1_5 = S754_finite false 6755399441055744 (-52)
  /\ f_2_0 = S754_finite false 4503599627370496 (-51).
Proof. repeat split; vm_compute; reflexivity. Qed.

(** C8.  The texts "$500M" and "$1.5B" are normalized to 0.5 and 1.5, and
    the sum of [raised_usd] over the group of country "France" that two such
    rows make is exactly 2.0. *)
Theorem france_raised_sum :
  currency "raised_usd" (Some "$500M") = Ok (Some f_0_5)
  /\ currency "raised_usd" (Some "$1.5B") = Ok (Some f_1_5)
  /\ prepare_dataset france_table = Ok france_prepared
  /\ map (fun p => (country p, raised_usd p)) france_prepared
     = [(Some "France", Some f_0_5); (Some "France", Some f_1_5)]
  /\ bar_chart france_prepared Country RaisedUsd Sum
     = [(Str "France", Num f_2_0)]
  /\ (forall p1 p2 : PreparedRow,
         country p1 = Some "France" -> country p2 = Some "France" ->
         raised_usd p1 = Some f_0_5 -> raised_usd p2 = Some f_1_5 ->
         bar_chart [p1; p2] Country RaisedUsd Sum = [(Str "France", Num f_2_0)]).
Proof.
  repeat split; try (vm_compute; reflexivity).
  intros p1 p2 C1 C2 R1 R2.
  destruct p1, p2; simpl in *; subst.
  vm_compute; reflexivity.
Qed.

Lemma france_raised_sum_witness :
  bar_chart france_prepared Country RaisedUsd Sum = [(Str "France", Num f_2_0)].
Proof.
  destruct france_raised_sum as (_ & _ & _ & _ & _ & H).
  change france_prepared
    with [ mkRow (Some "Mistral") (Some "France") (Some "AI") (Some "Active")
                 (Some f_0_5) (Some (F64.of_Z 2)) (Some "June 2023") (Some 2023);
           mkRow (Some "Doctolib") (Some "France") (Some "Health")
                 (Some "Active") (Some f_1_5)
                 (Some (F64.mul (F64.of_decimal false 64 8) scale))
                 (Some "March 2019") (Some 2019) ].
  apply H; reflexivity.
Defined.

(** ** The currency rule on a text without symbols *)

Lemma str_replace_absent (pat value s : string) :
  Text.contains pat s = false -> Text.str_replace pat value s = s.
Proof.
  induction s as [| c s IH].
  - destruct pat; simpl; [discriminate | reflexivity].
  - change (Text.contains pat (String c s))
      with (prefix pat (String c s) || Text.contains pat s).
    change (Text.str_replace pat value (String c s))
      with (if prefix pat (String c s)
            then (value ++ Text.drop (String.length pat) (String c s))%string
            else String c (Text.str_replace pat value s)).
    destruct (prefix pat (String c s)); simpl; [discriminate |].
    intros H. now rewrite IH.
Qed.

(** C4 (as the code has it).  On a text that holds no "$", "M", "B" or
    "N/A" the substitutions change nothing; the value of the rule is then the
    number the text writes multiplied by [1 / 1e9] (and the cast raises when
    the text writes no number). *)
Theorem currency_on_plain_number (column s : string) :
  Text.contains "$" s = false -> Text.contains "M" s = false ->
  Text.contains "B" s = false -> Text.contains "N/A" s = false ->
  substitute (Some s) = Some s
  /\ currency column (Some s)
     = match Cast.parse_f64 s with
       | Some x => Ok (Some (F64.mul x scale))
       | None => Err (ConversionError column)
       end.
Proof.
  intros Hd Hm Hb Hn.
  assert (E : substitute (Some s) = Some s).
  { unfold substitute, str_replace. simpl.
    now rewrite (@str_replace_absent "N/A" "0" s Hn),
      (@str_replace_absent "$" "" s Hd), (@str_replace_absent "M" "e6" s Hm),
      (@str_replace_absent "B" "e9" s Hb). }
  split; [exact E |].
  unfold currency. rewrite E. unfold cast_f64.
  destruct (Cast.parse_f64 s); reflexivity.
Qed.

Lemma currency_on_plain_number_witness :
  substitute (Some "2500000000") = Some "2500000000"
  /\ currency "valuation_usd" (Some "2500000000")
     = match Cast.parse_f64 "2500000000" with
       | Some x => Ok (Some (F64.mul x scale))
       | None => Err (ConversionError "valuation_usd")
       end.
Proof.
  apply (@currency_on_plain_number "valuation_usd" "2500000000");
    reflexivity.
Defined.

(** C4, counterexample.  The text "1" holds none of the symbols and writes
    the number 1; the rule gives it the value [1 / 1e9], which is not 1. *)
Lemma plain_number_is_scaled :
  Text.contains "$" "1" = false /\ Text.contains "M" "1" = false
  /\ Text.contains "B" "1" = false /\ Text.contains "N/A" "1" = false
  /\ Cast.parse_f64 "1" = Some (F64.of_Z 1)
  /\ currency "raised_usd" (Some "1") = Ok (Some scale)
  /\ currency "raised_usd" (Some "1") <> Ok (Some (F64.of_Z 1)).
Proof.
  repeat split; try (vm_compute; reflexivity).
  vm_compute. discriminate.
Qed.

(** ** Signs of binary64 results *)

Lemma iter_pos_inv {A : Type} (P : A -> Prop) (f : A -> A) :
  (forall x, P x -> P (f x)) ->
  forall (n : positive) (x : A), P x -> P (iter_pos f n x).
Proof.
  intros Hf; induction n as [n IH | n IH |]; intros x Hx; simpl; auto.
Qed.

Lemma shr_1_nonneg (mrs : shr_record) :
  0 <= shr_m mrs -> 0 <= shr_m (shr_1 mrs).
Proof.
  destruct mrs as [m r s]; simpl.
  destruct m as [| [p | p |] | [p | p |]]; simpl; lia.
Qed.

Lemma shr_fexp_nonneg (m e : Z) (l : location) :
  0 <= m -> 0 <= shr_m (fst (shr_fexp F64.prec F64.emax m e l)).
Proof.
  intros Hm. unfold shr_fexp, shr.
  assert (H0 : 0 <= shr_m (shr_record_of_loc m l))
    by (destruct l as [| []]; exact Hm).
  destruct (fexp F64.prec F64.emax (Zdigits2 m + e) - e) as [| p | p];
    simpl; trivial.
  apply (iter_pos_inv (fun mrs => 0 <= shr_m mrs)); [exact shr_1_nonneg | exact H0].
Qed.

Lemma round_nearest_even_nonneg (m : Z) (l : location) :
  0 <= m -> 0 <= round_nearest_even m l.
Proof.
  intros Hm. destruct l as [| []]; simpl; try destruct (Z.even m); lia.
Qed.

(** A rounding with the positive sign gives +0, a positive number or
    +infinity. *)
Lemma binary_round_aux_nonneg (mx ex : Z) (lx : location) :
  0 <= mx ->
  nonneg (binary_round_aux F64.prec F64.emax false mx ex lx) = true.
Proof.
  intros Hm. unfold binary_round_aux.
  pose proof (shr_fexp_nonneg ex lx Hm) as H1.
  destruct (shr_fexp F64.prec F64.emax mx ex lx) as [mrs' e']. simpl in H1.
  pose proof (@shr_fexp_nonneg
                (round_nearest_even (shr_m mrs') (loc_of_shr_record mrs'))
                e' loc_Exact (round_nearest_even_nonneg _ H1)) as H2.
  destruct (shr_fexp F64.prec F64.emax
              (round_nearest_even (shr_m mrs') (loc_of_shr_record mrs'))
              e' loc_Exact) as [mrs'' e'']. simpl in H2.
  destruct (shr_m mrs'') as [| m | m]; [reflexivity | | lia].
  destruct (e'' <=? F64.emax - F64.prec); reflexivity.
Qed.

Lemma of_decimal_nonneg (m : N) (e : Z) :
  nonneg (F64.of_decimal false m e) = true.
Proof.
  unfold F64.of_decimal. destruct m as [| p]; [reflexivity |].
  destruct (0 <=? e).
  - unfold binary_round.
    destruct (shl_align (p * Z.to_pos (10 ^ e)) 0 _) as [mz ez].
    apply binary_round_aux_nonneg. lia.
  - unfold SFdiv, SFdiv_core_binary.
    set (q := Z.to_pos (10 ^ (- e))).
    set (m' := match _ - _ with Z0 => Z.pos p | Z.pos _ => _ | Z.neg _ => 0 end).
    assert (Hm' : 0 <= m').
    { unfold m'. destruct (_ - _); try lia. apply Z.shiftl_nonneg. lia. }
    assert (Hq : 0 <= m' / Z.pos q) by (apply Z.div_pos; lia).
    unfold Z.div in Hq.
    destruct (Z.div_eucl m' (Z.pos q)) as [d r].
    apply binary_round_aux_nonneg. exact Hq.
Qed.

Lemma scale_value : scale = S754_finite false 4835703278458517 (-82).
Proof. vm_compute; reflexivity. Qed.

Lemma mul_scale_nonneg (x : F64.t) :
  nonneg x = true -> nonneg (F64.mul x scale) = true.
Proof.
  rewrite scale_value. unfold F64.mul. intros H.
  destruct x as [s | [|] | | [|] m e]; simpl in *; try discriminate; auto.
  apply binary_round_aux_nonneg. lia.
Qed.

Lemma mul_scale_nan : F64.mul F64.nan scale = F64.nan.
Proof. reflexivity. Qed.

(** ** Texts without a minus sign *)

Lemma contains_minus_cons (c : ascii) (s : string) :
  Text.contains "-" (String c s) = (Ascii.eqb c "-" || Text.contains "-" s)%bool.
Proof.
  change (Text.contains "-" (String c s))
    with (prefix "-" (String c s) || Text.contains "-" s).
  f_equal.
  destruct c as [[] [] [] [] [] [] [] []]; destruct s; reflexivity.
Qed.

Lemma contains_minus_app (a b : string) :
  Text.contains "-" (a ++ b)
  = (Text.contains "-" a || Text.contains "-" b)%bool.
Proof.
  induction a as [| c a IH]; [reflexivity |].
  change (String c a ++ b)%string with (String c (a ++ b)).
  rewrite !contains_minus_cons, IH. now rewrite orb_assoc.
Qed.

Lemma contains_minus_drop (n : nat) (s : string) :
  Text.contains "-" s = false -> Text.contains "-" (Text.drop n s) = false.
Proof.
  revert s; induction n as [| n IH]; intros s H; [exact H |].
  destruct s as [| c s]; [exact H |].
  rewrite contains_minus_cons in H. apply orb_false_iff in H as [_ H].
  simpl. now apply IH.
Qed.

Lemma contains_minus_str_replace (pat value s : string) :
  Text.contains "-" value = false -> Text.contains "-" s = false ->
  Text.contains "-" (Text.str_replace pat value s) = false.
Proof.
  intros Hv. induction s as [| c s IH]; intros Hs.
  - destruct pat as [| c pat]; [| reflexivity].
    simpl. now rewrite contains_minus_app, Hv.
  - change (Text.str_replace pat value (String c s))
      with (if prefix pat (String c s)
            then (value ++ Text.drop (String.length pat) (String c s))%string
            else String c (Text.str_replace pat value s)).
    destruct (prefix pat (String c s)).
    + rewrite contains_minus_app, Hv. simpl. now apply contains_minus_drop.
    + rewrite contains_minus_cons in *.
      apply orb_false_iff in Hs as [Hc Hs]. rewrite Hc. simpl. now apply IH.
Qed.

Lemma strip_sign_no_minus (s : string) :
  Text.contains "-" s = false -> fst (Cast.strip_sign s) = false.
Proof.
  destruct s as [| c s]; [reflexivity |].
  rewrite contains_minus_cons. intros H.
  apply orb_false_iff in H as [H _].
  destruct c as [[] [] [] [] [] [] [] []]; try discriminate; reflexivity.
Qed.

Lemma parse_f64_not_negative (s : string) (x : F64.t) :
  Text.contains "-" s = false -> Cast.parse_f64 s = Some x ->
  if String.eqb (Text.lowercase (snd (Cast.strip_sign s))) "nan"
  then x = F64.nan else nonneg x = true.
Proof.
  intros Hs. apply strip_sign_no_minus in Hs.
  unfold Cast.parse_f64.
  destruct (Cast.strip_sign s) as [neg s1]. simpl in Hs. subst neg.
  simpl snd.
  destruct (String.eqb (Text.lowercase s1) "nan");
    [intros H; now inversion H |].
  destruct (String.eqb (Text.lowercase s1) "inf"
            || String.eqb (Text.lowercase s1) "infinity")%bool;
    [intros H; now inversion H |].
  destruct (Text.span_digits s1) as [ip s2].
  destruct (match s2 with
            | String "." t => Text.span_digits t
            | _ => (EmptyString, s2)
            end) as [fp s3].
  destruct (ip ++ fp)%string as [| c ds]; [discriminate |].
  destruct (Cast.exponent s3) as [[e [| c' rest]] |]; try discriminate.
  intros H; inversion H. apply of_decimal_nonneg.
Qed.

Lemma currency_not_negative (column s : string) (v : option F64.t) :
  Text.contains "-" s = false -> currency column (Some s) = Ok v ->
  exists x, v = Some x /\ not_negative s x.
Proof.
  intros Hs H. unfold currency in H.
  apply bind_Ok_inv in H as (w & Hw & H). inversion H; subst v; clear H.
  unfold not_negative, spells_nan.
  unfold cast_f64, substitute, str_replace in *. simpl in *.
  set (t := Text.str_replace "B" "e9" _) in *.
  assert (Ht : Text.contains "-" t = false)
    by (unfold t; repeat apply contains_minus_str_replace; trivial).
  destruct (Cast.parse_f64 t) as [x |] eqn:E; [| discriminate].
  inversion Hw; subst w. simpl. eexists; split; [reflexivity |].
  pose proof (@parse_f64_not_negative t x Ht E) as P.
  destruct (String.eqb (Text.lowercase (snd (Cast.strip_sign t))) "nan").
  - subst x. apply mul_scale_nan.
  - now apply mul_scale_nonneg.
Qed.

Lemma currency_null (column : string) (v : option F64.t) :
  currency column None = Ok v -> v = None.
Proof.
  unfold currency. simpl. intros H; now inversion H.
Qed.

(** C6 (as the code has it).  For every table that is prepared, row by row:
    when the [raised_usd] text of the row read is present and holds no minus
    sign, the prepared value is present and not negative: it is NaN when the
    text spells nan, and at least zero when it does not; the same for
    [valuation_usd]; and a missing text gives a null value. *)
Theorem money_not_negative_without_minus (df : list RawRow)
    (out : list PreparedRow) :
  prepare_dataset df = Ok out ->
  Forall2 (fun r p =>
             (forall s, raised_usd r = Some s ->
                        Text.contains "-" s = false ->
                        exists x, raised_usd p = Some x /\ not_negative s x)
             /\ (forall s, valuation_usd r = Some s ->
                           Text.contains "-" s = false ->
                           exists x, valuation_usd p = Some x
                                     /\ not_negative s x)
             /\ (raised_usd r = None -> raised_usd p = None)
             /\ (valuation_usd r = None -> valuation_usd p = None))
          (List.filter passes df) out.
Proof.
  intros H. apply prepare_dataset_Ok_iff in H.
  revert H. apply Forall2_impl.
  intros r p (_ & _ & _ & _ & Hr & Hv & _).
  repeat split.
  - intros s Hs Hm. rewrite Hs in Hr.
    exact (@currency_not_negative "raised_usd" s _ Hm Hr).
  - intros s Hs Hm. rewrite Hs in Hv.
    exact (@currency_not_negative "valuation_usd" s _ Hm Hv).
  - intros Hs. rewrite Hs in Hr. now apply currency_null in Hr.
  - intros Hs. rewrite Hs in Hv. now apply currency_null in Hv.
Qed.

Lemma money_not_negative_without_minus_witness :
  prepare_dataset sample_table = Ok sample_prepared
  /\ Forall2 (fun r p =>
                (forall s, raised_usd r = Some s ->
                           Text.contains "-" s = false ->
                           exists x, raised_usd p = Some x /\ not_negative s x)
                /\ (forall s, valuation_usd r = Some s ->
                              Text.contains "-" s = false ->
                              exists x, valuation_usd p = Some x
                                        /\ not_negative s x)
                /\ (raised_usd r = None -> raised_usd p = None)
                /\ (valuation_usd r = None -> valuation_usd p = None))
             (List.filter passes sample_table) sample_prepared.
Proof.
  assert (E : prepare_dataset sample_table = Ok sample_prepared)
    by (vm_compute; reflexivity).
  split; [exact E |].
  exact (money_not_negative_without_minus sample_table E).
Defined.

(** C6, counterexample.  Of the three rows of the table, all kept, the first
    has the text "-$5M" and a value below zero, the second the text "nan"
    and the value NaN, which is not at least zero, and the third no text and
    a null value. *)
Lemma negative_money_value :
  exists x, map (@raised_usd _ _ _) signed_prepared = [Some x; Some F64.nan; None]
            /\ prepare_dataset signed_table = Ok signed_prepared
            /\ F64.ltb x F64.zero = true
            /\ nonneg x = false
            /\ spells_nan "nan" = true
            /\ nonneg F64.nan = false.
Proof.
  eexists. split; [vm_compute; reflexivity |].
  repeat split; vm_compute; reflexivity.
Qed.

(** ** The stable descending sort *)

Section StableSortFacts.
Context {A : Type}.
Variable key : A -> nat.

Let ge_key (a b : A) : Prop := (key b <= key a)%nat.

Lemma insert_desc_perm (a : A) (l : list A) :
  Permutation (insert_desc key a l) (a :: l).
Proof.
  induction l as [| b l IH]; simpl; [reflexivity |].
  destruct (key a <? key b)%nat; [| reflexivity].
  rewrite IH. apply perm_swap.
Qed.

Lemma sort_desc_perm (l : list A) : Permutation (sort_desc key l) l.
Proof.
  induction l as [| a l IH]; simpl; [reflexivity |].
  rewrite insert_desc_perm. now constructor.
Qed.

Lemma insert_desc_sorted (a : A) (l : list A) :
  StronglySorted ge_key l -> StronglySorted ge_key (insert_desc key a l).
Proof.
  induction 1 as [| b l Hl IH Hb]; simpl.
  - repeat constructor.
  - destruct (Nat.ltb_spec (key a) (key b)) as [Hlt | Hge].
    + constructor; [exact IH |].
      eapply Permutation_Forall;
        [apply Permutation_sym, insert_desc_perm |].
      constructor; [unfold ge_key; lia | exact Hb].
    + constructor; [now constructor |].
      constructor; [exact Hge |].
      revert Hb. apply Forall_impl. unfold ge_key. intros c Hc. lia.
Qed.

Lemma sort_desc_sorted (l : list A) : StronglySorted ge_key (sort_desc key l).
Proof.
  induction l as [| a l IH]; simpl; [constructor |].
  now apply insert_desc_sorted.
Qed.

(** Stability: the values of one key keep their order. *)
Lemma insert_desc_filter (n : nat) (a : A) (l : list A) :
  List.filter (fun c => (key c =? n)%nat) (insert_desc key a l)
  = List.filter (fun c => (key c =? n)%nat) (a :: l).
Proof.
  induction l as [| b l IH]; simpl; [reflexivity |].
  destruct (Nat.ltb_spec (key a) (key b)) as [Hlt | Hge]; [| reflexivity].
  simpl. rewrite IH. simpl.
  destruct (Nat.eqb_spec (key a) n) as [Ha | Ha];
    destruct (Nat.eqb_spec (key b) n) as [Hb | Hb]; trivial.
  lia.
Qed.

Lemma sort_desc_filter (n : nat) (l : list A) :
  List.filter (fun c => (key c =? n)%nat) (sort_desc key l)
  = List.filter (fun c => (key c =? n)%nat) l.
Proof.
  induction l as [| a l IH]; simpl; [reflexivity |].
  rewrite insert_desc_filter. simpl. now rewrite IH.
Qed.

End StableSortFacts.

(** ** The groups of a column *)

Lemma cell_eqb_refl (g : cell) : cell_eqb g g = true.
Proof.
  unfold cell_eqb. destruct (cell_eq_dec g g); congruence.
Qed.

Lemma cell_eqb_neq (g h : cell) : g <> h -> cell_eqb g h = false.
Proof.
  unfold cell_eqb. destruct (cell_eq_dec g h); congruence.
Qed.

Lemma same_group_iff (a b : cell) : same_group a b = true <-> key a = key b.
Proof.
  unfold same_group, cell_eqb.
  destruct (cell_eq_dec (key a) (key b)); split; congruence.
Qed.

Lemma same_group_refl (a : cell) : same_group a a = true.
Proof. now apply same_group_iff. Qed.

Lemma first_seen_incl (l : list cell) (g : cell) :
  In g (first_seen l) -> In g l.
Proof.
  induction l as [| a l IH]; simpl; [tauto |].
  intros [-> | H]; [now left |].
  apply filter_In in H as [H _]. right. now apply IH.
Qed.

(** Every value is in the group of one of the values met first. *)
Lemma first_seen_covers (l : list cell) (a : cell) :
  In a l -> exists g, In g (first_seen l) /\ key g = key a.
Proof.
  induction l as [| b l IH]; simpl; [contradiction |].
  intros [-> | H]; [exists a; auto |].
  destruct (IH H) as (g & Hg & Hk).
  destruct (same_group b g) eqn:E.
  - exists b. split; [now left |].
    apply same_group_iff in E. congruence.
  - exists g. split; [right | exact Hk].
    apply filter_In. split; [exact Hg | now rewrite E].
Qed.

Lemma NoDup_map_filter {A B : Type} (k : A -> B) (f : A -> bool) (l : list A) :
  NoDup (map k l) -> NoDup (map k (List.filter f l)).
Proof.
  induction l as [| a l IH]; simpl; [trivial |].
  intros H. inversion H as [| ? ? Hn Hl]; subst.
  destruct (f a); simpl; [| now apply IH].
  constructor; [| now apply IH].
  intros Hin. apply Hn.
  apply in_map_iff in Hin as (b & Hb & Hin).
  apply filter_In in Hin as [Hin _].
  apply in_map_iff. eauto.
Qed.

(** The values met first are of different groups. *)
Lemma first_seen_NoDup (l : list cell) : NoDup (map key (first_seen l)).
Proof.
  induction l as [| a l IH]; simpl; constructor.
  - intros Hin. apply in_map_iff in Hin as (b & Hb & Hin).
    apply filter_In in Hin as [_ Hin].
    symmetry in Hb. apply same_group_iff in Hb.
    rewrite Hb in Hin. discriminate.
  - now apply NoDup_map_filter.
Qed.

Lemma Subseq_StronglySorted {A : Type} (R : A -> A -> Prop) (l1 l2 : list A) :
  Subseq l1 l2 -> StronglySorted R l2 -> StronglySorted R l1.
Proof.
  induction 1 as [| a l1 l2 _ IH | a l1 l2 Hs IH]; intros H.
  - constructor.
  - inversion H; subst. now apply IH.
  - inversion H as [| ? ? Hl Hf]; subst.
    constructor; [now apply IH |].
    clear IH Hl H. induction Hs as [| b l1 l2 _ IH | b l1 l2 _ IH].
    + constructor.
    + inversion Hf; subst. now apply IH.
    + inversion Hf; subst. constructor; [assumption | now apply IH].
Qed.

Lemma Subseq_incl {A : Type} (l1 l2 : list A) (a : A) :
  Subseq l1 l2 -> In a l1 -> In a l2.
Proof.
  induction 1 as [| b l1 l2 _ IH | b l1 l2 _ IH]; simpl; intuition.
Qed.

(** ** The order of the bars *)

(** The bars drawn are the groups, in the order of the sort, less those for
    which nothing is drawn. *)
Lemma bar_chart_keys (df : list PreparedRow) (y x : column) (f : func) :
  map fst (bar_chart df y x f)
  = List.filter
      (fun g => match aggregate f x (group df y g) with
                | Some _ => true
                | None => false
                end)
      (sort_desc (group_count df y) (first_seen (map (fun r => get r y) df))).
Proof.
  unfold bar_chart. cbv zeta.
  induction (sort_desc _ _) as [| g l IH]; simpl; [reflexivity |].
  rewrite map_app, IH. unfold bar.
  destruct (aggregate f x (group df y g)); reflexivity.
Qed.

(** With [count] every group has its bar. *)
Lemma bar_chart_count (df : list PreparedRow) (y x : column) :
  bar_chart df y x Count
  = map (fun g => (g, Int (Z.of_nat (group_count df y g))))
        (sort_desc (group_count df y)
                   (first_seen (map (fun r => get r y) df))).
Proof.
  unfold bar_chart. cbv zeta.
  induction (sort_desc _ _) as [| g l IH]; simpl; [reflexivity |].
  now rewrite IH.
Qed.

Lemma bar_chart_count_keys (df : list PreparedRow) (y x : column) :
  map fst (bar_chart df y x Count)
  = sort_desc (group_count df y) (first_seen (map (fun r => get r y) df)).
Proof.
  rewrite bar_chart_count, map_map. simpl. apply map_id.
Qed.

Lemma bar_chart_Subseq (df : list PreparedRow) (y x x' : column) (f : func) :
  Subseq (map fst (bar_chart df y x f)) (map fst (bar_chart df y x' Count)).
Proof.
  rewrite bar_chart_keys, bar_chart_count_keys. apply Subseq_filter.
Qed.

(** A bar of a sum chart draws the sum of the numbers of its group. *)
Lemma bar_chart_sums (df : list PreparedRow) (y x : column) :
  Forall (fun b => exists total,
              snd b = Num total
              /\ sum_of (map (fun r => get r x) (group df y (fst b)))
                 = Some total)
         (bar_chart df y x Sum).
Proof.
  unfold bar_chart. cbv zeta. apply Forall_forall. intros b Hb.
  apply in_flat_map in Hb as (g & _ & Hb). unfold bar, aggregate in Hb.
  destruct (sum_of (map (fun r => get r x) (group df y g)))
    as [total |] eqn:E; [| contradiction].
  destruct (F64.is_finite total); [| contradiction].
  destruct Hb as [<- | []]. simpl. eauto.
Qed.

(** The groups of the count chart: one bar for each group of the column. *)
Lemma bar_chart_groups (df : list PreparedRow) (y x : column) :
  let counted := map fst (bar_chart df y x Count) in
  Permutation counted (first_seen (map (fun r => get r y) df))
  /\ NoDup (map key counted)
  /\ (forall r, In r df -> exists g, In g counted /\ key g = key (get r y))
  /\ (forall g, In g counted -> exists r, In r df /\ get r y = g).
Proof.
  cbv zeta. rewrite bar_chart_count_keys.
  set (groups := first_seen (map (fun r => get r y) df)).
  assert (P : Permutation (sort_desc (group_count df y) groups) groups)
    by apply sort_desc_perm.
  split; [exact P | split; [| split]].
  - eapply Permutation_NoDup;
      [apply Permutation_map, Permutation_sym, P | apply first_seen_NoDup].
  - intros r Hr.
    destruct (@first_seen_covers (map (fun r => get r y) df) (get r y))
      as (g & Hg & Hk); [apply in_map_iff; eauto |].
    exists g. split; [| exact Hk].
    apply (Permutation_in _ (Permutation_sym P)). exact Hg.
  - intros g Hg. apply (Permutation_in _ P) in Hg.
    apply first_seen_incl, in_map_iff in Hg as (r & Hr & Hin). eauto.
Qed.

(** C2 (as the code has it).  For every table, grouping column of texts or
    whole numbers, measure and aggregation: the count chart has one bar for
    each group of the column, a null and the text "null" being one group;
    its bars are ordered by the NUMBER OF ROWS of the group in descending
    order, groups with the same number of rows staying in first-seen order,
    and each draws that number.  The bars of every other chart are bars of
    the count chart in the same order, so they too follow the row counts
    and not the value drawn; a bar of a sum chart over a column of numbers
    draws the sum of the numbers of its group, nulls and NaN left out. *)
Theorem bar_chart_order (df : list PreparedRow) (y x : column) (f : func) :
  discrete y = true ->
  let groups := first_seen (map (fun r => get r y) df) in
  let counted := map fst (bar_chart df y x Count) in
  let keys := map fst (bar_chart df y x f) in
  Permutation counted groups
  /\ NoDup (map key counted)
  /\ (forall r, In r df -> exists g, In g counted /\ key g = key (get r y))
  /\ (forall g, In g counted -> exists r, In r df /\ get r y = g)
  /\ StronglySorted
       (fun g h => (group_count df y h <= group_count df y g)%nat) counted
  /\ (forall n,
         List.filter (fun g => (group_count df y g =? n)%nat) counted
         = List.filter (fun g => (group_count df y g =? n)%nat) groups)
  /\ map snd (bar_chart df y x Count)
     = map (fun g => Int (Z.of_nat (group_count df y g))) counted
  /\ Subseq keys counted
  /\ StronglySorted
       (fun g h => (group_count df y h <= group_count df y g)%nat) keys
  /\ (numeric x = true ->
      Forall (fun b => exists total,
                  snd b = Num total
                  /\ sum_of (map (fun r => get r x) (group df y (fst b)))
                     = Some total)
             (bar_chart df y x Sum)).
Proof.
  intros _ groups counted keys.
  destruct (bar_chart_groups df y x) as (P & Hnd & Hcov & Hin).
  fold counted in P, Hnd, Hcov, Hin. fold groups in P.
  assert (S : StronglySorted
                (fun g h => (group_count df y h <= group_count df y g)%nat)
                counted)
    by (unfold counted; rewrite bar_chart_count_keys; apply sort_desc_sorted).
  assert (Q : Subseq keys counted) by apply bar_chart_Subseq.
  split; [exact P |].
  split; [exact Hnd |].
  split; [exact Hcov |].
  split; [exact Hin |].
  split; [exact S |].
  split; [intros n; unfold counted; rewrite bar_chart_count_keys;
          apply sort_desc_filter |].
  split; [unfold counted; rewrite bar_chart_count, !map_map; reflexivity |].
  split; [exact Q |].
  split; [exact (Subseq_StronglySorted Q S) | intros _; apply bar_chart_sums].
Qed.

Lemma bar_chart_order_witness :
  StronglySorted
    (fun g h => (group_count tie_prepared Country h
                 <= group_count tie_prepared Country g)%nat)
    (map fst (bar_chart tie_prepared Country ValuationUsd Sum))
  /\ Subseq (map fst (bar_chart tie_prepared Country ValuationUsd Sum))
            (map fst (bar_chart tie_prepared Country ValuationUsd Count)).
Proof.
  destruct (@bar_chart_order tie_prepared Country ValuationUsd Sum eq_refl)
    as (_ & _ & _ & _ & _ & _ & _ & Q & S & _).
  split; [exact S | exact Q].
Defined.

(** The example of the counts 3, 5 and 5: the two groups of five come first,
    in the order in which they are met, whatever is drawn. *)
Lemma bar_chart_tie_example :
  prepare_dataset tie_table = Ok tie_prepared
  /\ first_seen (map (fun r => get r Country) tie_prepared)
     = [Str "Austria"; Str "Belgium"; Str "Croatia"]
  /\ bar_chart tie_prepared Country Company Count
     = [(Str "Belgium", Int 5); (Str "Croatia", Int 5); (Str "Austria", Int 3)]
  /\ map fst (bar_chart tie_prepared Country ValuationUsd Sum)
     = [Str "Belgium"; Str "Croatia"; Str "Austria"].
Proof.
  repeat split; vm_compute; reflexivity.
Qed.

(** C2, counterexample.  With the aggregation [sum] over [valuation_usd]:
    Spain has two rows and the sum 2, France one row and the sum 10; the bar
    of Spain comes first, so the bars are not in descending order of the
    aggregated value. *)
Lemma sum_bars_follow_counts :
  prepare_dataset sum_order_table = Ok sum_order_prepared
  /\ bar_chart sum_order_prepared Country ValuationUsd Sum
     = [(Str "Spain", Num (F64.of_Z 2)); (Str "France", Num (F64.of_Z 10))]
  /\ ~ descending_values (bar_chart sum_order_prepared Country ValuationUsd Sum).
Proof.
  assert (E : bar_chart sum_order_prepared Country ValuationUsd Sum
              = [(Str "Spain", Num (F64.of_Z 2));
                 (Str "France", Num (F64.of_Z 10))])
    by (vm_compute; reflexivity).
  split; [vm_compute; reflexivity | split; [exact E |]].
  rewrite E. intros H. inversion H as [| a l _ F]; subst.
  inversion F as [| b l' Hb _]; subst.
  vm_compute in Hb. discriminate.
Qed.

(** The four digits need not be a whole run: inside a longer run of digits
    the first four are taken. *)
Lemma year_inside_longer_run :
  year_of (Some "Q1 20155") = Ok (Some 2015)
  /\ year_of (Some "12345 2015") = Ok (Some 1234).
Proof. split; reflexivity. Qed.

(** * Further properties of the program *)

(** ** The three ways in which [prepare_dataset] fails *)

(** The preparation fails in three ways only, one for each strict cast.  It
    raises on the column [raised_usd] exactly when some kept row has a
    [raised_usd] text that does not convert, wherever the row stands; on
    [valuation_usd] exactly when every kept [raised_usd] text converts and
    some kept [valuation_usd] text does not; on [unicorn_month] exactly when
    every kept money text converts and, on some kept row, the first four
    decimal digits of the month text are not all ASCII digits.  The columns
    are cast one after the other, so a bad [raised_usd] text hides every
    other bad text.  Month texts of ASCII characters never make it fail. *)
Theorem prepare_dataset_fails_iff (df : list RawRow) (e : error) :
  (prepare_dataset df = Err e <->
   (e = ConversionError "raised_usd"
    /\ Exists (fun r => converts (raised_usd r) = false)
              (List.filter passes df))
   \/ (e = ConversionError "valuation_usd"
       /\ Forall (fun r => converts (raised_usd r) = true)
                 (List.filter passes df)
       /\ Exists (fun r => converts (valuation_usd r) = false)
                 (List.filter passes df))
   \/ (e = ConversionError "unicorn_month"
       /\ Forall (fun r => converts (raised_usd r) = true
                           /\ converts (valuation_usd r) = true)
                 (List.filter passes df)
       /\ Exists (fun r => year_converts (unicorn_month r) = false)
                 (List.filter passes df)))
  /\ (forall s, ascii_only s = true -> year_converts (Some s) = true)
  /\ year_converts None = true.
Proof.
  split; [| split; [apply year_converts_ascii_only | reflexivity]].
  split; [apply prepare_dataset_Err_inv |].
  intros H.
  destruct (prepare_dataset df) as [out | e'] eqn:E.
  - exfalso. apply prepare_dataset_Ok_converts in E.
    destruct H as [[_ H] | [(_ & _ & H) | (_ & _ & H)]];
      revert H; apply Forall_Exists_false;
      revert E; apply Forall_impl; tauto.
  - f_equal. apply prepare_dataset_Err_inv in E.
    destruct H as [[-> H] | [(-> & HF & H) | (-> & HF & H)]];
      destruct E as [[-> E] | [(-> & EF & E) | (-> & EF & E)]];
      trivial; exfalso.
    + exact (Forall_Exists_false _ EF H).
    + eapply Forall_Exists_false; [| exact H].
      revert EF. apply Forall_impl. tauto.
    + exact (Forall_Exists_false _ HF E).
    + eapply Forall_Exists_false; [| exact H].
      revert EF. apply Forall_impl. tauto.
    + eapply Forall_Exists_false; [| exact E].
      revert HF. apply Forall_impl. tauto.
    + eapply Forall_Exists_false; [| exact E].
      revert HF. apply Forall_impl. tauto.
Qed.

Lemma prepare_dataset_fails_iff_witness :
  prepare_dataset arabic_year_table = Err (ConversionError "unicorn_month")
  /\ year_converts (Some "March 2015") = true.
Proof.
  split.
  - apply (proj1 (prepare_dataset_fails_iff arabic_year_table
                    (ConversionError "unicorn_month"))).
    right; right. split; [reflexivity | split].
    + repeat constructor.
    + apply Exists_cons_tl, Exists_cons_hd. reflexivity.
  - apply (proj1 (proj2 (prepare_dataset_fails_iff
                           arabic_year_table (ConversionError "unicorn_month")))).
    reflexivity.
Defined.

(** ** Rows of the United Kingdom *)

Lemma UK_not_listed : ~ In "UK" european_countries.
Proof.
  simpl. intros H.
  repeat (destruct H as [H | H]; [discriminate |]). contradiction.
Qed.

(** A prepared row has the country "UK" exactly when the row read had the
    country "United Kingdom"; a row read with the country already written
    "UK" is not in the list and is dropped. *)
Theorem uk_rows_come_from_united_kingdom (df : list RawRow)
    (out : list PreparedRow) :
  prepare_dataset df = Ok out ->
  Forall2 (fun r p => country p = Some "UK"
                      <-> country r = Some "United Kingdom")
          (List.filter passes df) out
  /\ Forall (fun r => country r <> Some "UK") (List.filter passes df).
Proof.
  intros H. apply prepare_dataset_Ok_iff in H. split.
  - apply Forall2_filter_l in H. revert H. apply Forall2_impl.
    intros r p [Hr (_ & Hco & _)].
    apply passes_iff in Hr as ((c & Hc & Hin) & _).
    rewrite Hco, Hc. simpl. rewrite (rename_european Hin).
    destruct (String.eqb_spec c "United Kingdom") as [-> | Hne].
    + tauto.
    + split; intros E; inversion E; subst; [| contradiction].
      exfalso. now apply UK_not_listed.
  - apply Forall_forall. intros r Hr E.
    apply filter_In in Hr as [_ Hr].
    apply passes_iff in Hr as ((c & Hc & Hin) & _).
    rewrite E in Hc. inversion Hc; subst c. now apply UK_not_listed.
Qed.

Lemma uk_rows_come_from_united_kingdom_witness :
  prepare_dataset sample_table = Ok sample_prepared
  /\ Forall2 (fun r p => country p = Some "UK"
                         <-> country r = Some "United Kingdom")
             (List.filter passes sample_table) sample_prepared.
Proof.
  assert (E : prepare_dataset sample_table = Ok sample_prepared)
    by (vm_compute; reflexivity).
  split; [exact E |].
  exact (proj1 (uk_rows_come_from_united_kingdom sample_table E)).
Defined.

(** ** The range of the year *)

(** Whenever [prepare_dataset] returns, the year of a prepared row, when it
    is not null, lies between 0 and 9999: it is written by four ASCII
    digits. *)
Theorem prepared_year_range (df : list RawRow) (out : list PreparedRow) :
  prepare_dataset df = Ok out ->
  Forall (fun p => forall y, unicorn_year p = Some y -> 0 <= y <= 9999) out.
Proof.
  intros H. apply prepare_dataset_Ok_iff in H.
  revert H. apply Forall2_Forall_r.
  intros r p (_ & _ & _ & _ & _ & _ & _ & Hy) y E.
  rewrite E in Hy. exact (year_of_range _ Hy).
Qed.

Lemma prepared_year_range_witness :
  prepare_dataset sample_table = Ok sample_prepared
  /\ Forall (fun p => forall y, unicorn_year p = Some y -> 0 <= y <= 9999)
            sample_prepared.
Proof.
  assert (E : prepare_dataset sample_table = Ok sample_prepared)
    by (vm_compute; reflexivity).
  split; [exact E | exact (prepared_year_range sample_table E)].
Defined.

(** ** The three filters of [main] as one *)

Lemma filter_filter {A : Type} (f g : A -> bool) (l : list A) :
  List.filter g (List.filter f l) = List.filter (fun a => f a && g a) l.
Proof.
  induction l as [| a l IH]; simpl; [reflexivity |].
  destruct (f a); simpl; [destruct (g a) |]; now rewrite IH.
Qed.

Lemma filter_true {A : Type} (l : list A) : List.filter (fun _ => true) l = l.
Proof.
  induction l; simpl; congruence.
Qed.

Lemma holds_eq_str {R V Y : Type} (col : Row R V Y -> option string)
    (choice : string) (r : Row R V Y) :
  holds (fun r => eq_str (col r) choice) r
  = match col r with Some s => String.eqb s choice | None => false end.
Proof.
  unfold holds, eq_str. destruct (col r) as [s |]; simpl; [| reflexivity].
  now destruct (String.eqb s choice).
Qed.

Lemma holds_year_range (year_1b : Z * Z) (p : PreparedRow) :
  holds (fun r => and3 (ge_int (unicorn_year r) (fst year_1b))
                       (le_int (unicorn_year r) (snd year_1b))) p
  = in_range year_1b (unicorn_year p).
Proof.
  unfold holds, in_range, ge_int, le_int.
  destruct (unicorn_year p) as [y |]; simpl; [| reflexivity].
  destruct (fst year_1b <=? y), (y <=? snd year_1b); reflexivity.
Qed.

Lemma filtered_df_fused (df : list PreparedRow)
    (location industry : string) (year_1b : Z * Z) :
  filtered_df df location industry year_1b
  = List.filter (selected location industry year_1b) df.
Proof.
  unfold filtered_df, df_filter, selected, chosen.
  destruct (String.eqb location "All"), (String.eqb industry "All"); simpl;
    rewrite ?filter_filter; apply filter_ext; intros p;
    rewrite ?holds_eq_str, holds_year_range, ?andb_true_r, ?andb_assoc;
    reflexivity.
Qed.

Lemma chosen_iff (choice : string) (v : option string) :
  chosen choice v = true <-> choice = "All" \/ v = Some choice.
Proof.
  unfold chosen. rewrite orb_true_iff, String.eqb_eq.
  destruct v as [s |].
  - rewrite String.eqb_eq. split; intros [H | H]; auto.
    + right. now subst.
    + right. now inversion H.
  - split; intros [H | H]; auto; discriminate.
Qed.

(** The three filters of [main], applied one after the other, keep exactly
    the rows that satisfy the three conditions together, in their order: a
    row is in the view when its country is the one chosen (or "All" is
    chosen), its industry likewise, and its year is present and within the
    range, bounds included. *)
Theorem filtered_df_is_one_filter (df : list PreparedRow)
    (location industry : string) (year_1b : Z * Z) :
  filtered_df df location industry year_1b
  = List.filter (selected location industry year_1b) df
  /\ forall p,
       In p (filtered_df df location industry year_1b) <->
       In p df
       /\ (location = "All" \/ country p = Some location)
       /\ (industry = "All" \/ vertical p = Some industry)
       /\ exists y, unicorn_year p = Some y
                    /\ fst year_1b <= y <= snd year_1b.
Proof.
  split; [apply filtered_df_fused |].
  intros p. rewrite filtered_df_fused, filter_In.
  unfold selected, in_range. rewrite !andb_true_iff, !chosen_iff.
  destruct (unicorn_year p) as [y |].
  - rewrite andb_true_iff, !Z.leb_le. split.
    + intros (Hp & (Hc & Hi) & Hy). eauto 6.
    + intros (Hp & Hc & Hi & z & E & Hy). inversion E; subst z. tauto.
  - split.
    + intros (_ & _ & H). discriminate.
    + intros (_ & _ & _ & z & E & _). discriminate.
Qed.

(** Views compose: the view of a view keeps the rows that both selections
    keep, so two selections give the same view in either order, and a
    selection applied twice changes nothing. *)
Theorem filtered_df_compose (df : list PreparedRow)
    (l1 i1 l2 i2 : string) (y1 y2 : Z * Z) :
  filtered_df (filtered_df df l1 i1 y1) l2 i2 y2
  = List.filter (fun p => selected l1 i1 y1 p && selected l2 i2 y2 p) df
  /\ filtered_df (filtered_df df l1 i1 y1) l2 i2 y2
     = filtered_df (filtered_df df l2 i2 y2) l1 i1 y1
  /\ filtered_df (filtered_df df l1 i1 y1) l1 i1 y1 = filtered_df df l1 i1 y1.
Proof.
  rewrite !filtered_df_fused, !filter_filter.
  repeat split.
  - apply filter_ext. intros p. apply andb_comm.
  - apply filter_ext. intros p. now destruct (selected l1 i1 y1 p).
Qed.

Lemma Subseq_filter_impl {A : Type} (f g : A -> bool) (l : list A) :
  (forall a, f a = true -> g a = true) ->
  Subseq (List.filter f l) (List.filter g l).
Proof.
  intros H. induction l as [| a l IH]; simpl; [constructor |].
  destruct (f a) eqn:F.
  - rewrite (H a F). now constructor.
  - destruct (g a); [now constructor | exact IH].
Qed.

(** Widening a control never loses a row: the view for a country, an
    industry and a year range is a subsequence of the view for "All"
    countries, of the view for "All" industries, and of the view for any
    wider year range.  A range whose upper bound is below its lower bound
    gives the empty view. *)
Theorem filtered_df_widen (df : list PreparedRow)
    (location industry : string) (lo hi lo' hi' : Z) :
  Subseq (filtered_df df location industry (lo, hi))
         (filtered_df df "All" industry (lo, hi))
  /\ Subseq (filtered_df df location industry (lo, hi))
            (filtered_df df location "All" (lo, hi))
  /\ (lo' <= lo -> hi <= hi' ->
      Subseq (filtered_df df location industry (lo, hi))
             (filtered_df df location industry (lo', hi')))
  /\ (hi < lo -> filtered_df df location industry (lo, hi) = []).
Proof.
  rewrite !filtered_df_fused. unfold selected.
  split; [| split; [| split]].
  - apply Subseq_filter_impl. intros p.
    rewrite !andb_true_iff. intros [[_ H2] H3]. auto.
  - apply Subseq_filter_impl. intros p.
    rewrite !andb_true_iff. intros [[H1 _] H3]. auto.
  - intros Hlo Hhi.
    apply Subseq_filter_impl. intros p. unfold in_range. simpl.
    rewrite !andb_true_iff. intros [H12 H3]. split; [exact H12 |].
    destruct (unicorn_year p) as [y |]; [| discriminate].
    rewrite andb_true_iff, !Z.leb_le in *. lia.
  - intros Hinv.
    assert (E : forall p, selected location industry (lo, hi) p = false).
    { intros p. unfold selected, in_range. simpl.
      destruct (unicorn_year p) as [y |]; [| now rewrite andb_false_r].
      destruct (Z.leb_spec lo y), (Z.leb_spec y hi);
        try (now rewrite andb_false_r); lia. }
    fold (selected location industry (lo, hi)).
    induction df as [| p df IH]; simpl; [reflexivity |].
    now rewrite E.
Qed.

Lemma filtered_df_widen_witness :
  Subseq (filtered_df sample_prepared "France" "AI" (2019, 2023))
         (filtered_df sample_prepared "France" "AI" (2018, 2023))
  /\ filtered_df sample_prepared "France" "AI" (2023, 2019) = [].
Proof.
  destruct (filtered_df_widen sample_prepared "France" "AI" 2019 2023 2018 2023)
    as (_ & _ & H3 & _).
  destruct (filtered_df_widen sample_prepared "France" "AI" 2023 2019 0 0)
    as (_ & _ & _ & H4).
  split; [apply H3; lia | apply H4; lia].
Defined.

(** ** The bounds of the year slider *)

Lemma fold_opt_min_In (l : list Z) (acc : option Z) (lo : Z) :
  fold_left opt_min l acc = Some lo -> In lo l \/ acc = Some lo.
Proof.
  revert acc; induction l as [| z l IH]; simpl; intros acc H; [now right |].
  apply IH in H as [H | H]; [now left; right |].
  destruct acc as [a |]; simpl in H; inversion H.
  - destruct (Z.min_spec a z) as [[_ ->] | [_ ->]]; auto.
  - auto.
Qed.

Lemma fold_opt_max_In (l : list Z) (acc : option Z) (hi : Z) :
  fold_left opt_max l acc = Some hi -> In hi l \/ acc = Some hi.
Proof.
  revert acc; induction l as [| z l IH]; simpl; intros acc H; [now right |].
  apply IH in H as [H | H]; [now left; right |].
  destruct acc as [a |]; simpl in H; inversion H.
  - destruct (Z.max_spec a z) as [[_ ->] | [_ ->]]; auto.
  - auto.
Qed.

Lemma fold_opt_min_None (l : list Z) (acc : option Z) :
  fold_left opt_min l acc = None <-> l = [] /\ acc = None.
Proof.
  revert acc; induction l as [| z l IH]; simpl; intros acc; [tauto |].
  rewrite IH. split; [| intros [H _]; discriminate].
  intros [_ H]. destruct acc; discriminate.
Qed.

Lemma fold_opt_max_None (l : list Z) (acc : option Z) :
  fold_left opt_max l acc = None <-> l = [] /\ acc = None.
Proof.
  revert acc; induction l as [| z l IH]; simpl; intros acc; [tauto |].
  rewrite IH. split; [| intros [H _]; discriminate].
  intros [_ H]. destruct acc; discriminate.
Qed.

Lemma years_nil (df : list PreparedRow) :
  years df = [] <-> Forall (fun p => unicorn_year p = None) df.
Proof.
  induction df as [| p df IH]; simpl.
  - split; [constructor | reflexivity].
  - destruct (unicorn_year p) as [y |] eqn:E.
    + split; [discriminate | intros H; inversion H; congruence].
    + rewrite IH. split; [now constructor | intros H; now inversion H].
Qed.

(** The bounds the slider is given are null, both of them, exactly when no
    row has a year.  Otherwise each is the year of some row, the least is
    not above the greatest, and every year of the table lies between
    them. *)
Theorem slider_bounds (df : list PreparedRow) :
  (year_min df = None <-> Forall (fun p => unicorn_year p = None) df)
  /\ (year_max df = None <-> Forall (fun p => unicorn_year p = None) df)
  /\ (forall lo hi,
         year_min df = Some lo -> year_max df = Some hi ->
         lo <= hi
         /\ (exists p, In p df /\ unicorn_year p = Some lo)
         /\ (exists p, In p df /\ unicorn_year p = Some hi)
         /\ Forall (fun p => forall y, unicorn_year p = Some y -> lo <= y <= hi)
                   df).
Proof.
  unfold year_min, year_max. split; [| split].
  - rewrite fold_opt_min_None, <- years_nil. tauto.
  - rewrite fold_opt_max_None, <- years_nil. tauto.
  - intros lo hi Hlo Hhi.
    destruct (fold_opt_min_In _ _ Hlo) as [Ilo | ?]; [| discriminate].
    destruct (fold_opt_max_In _ _ Hhi) as [Ihi | ?]; [| discriminate].
    apply fold_opt_min_le in Hlo as [Hlo _].
    apply fold_opt_max_ge in Hhi as [Hhi _].
    split; [now apply Hlo |].
    split; [now apply years_In |]. split; [now apply years_In |].
    apply Forall_forall. intros p Hp y Hy.
    assert (In y (years df)) by (apply years_In; eauto).
    split; auto.
Qed.

Lemma slider_bounds_witness :
  year_min sample_prepared = Some 2018
  /\ year_max sample_prepared = Some 2023
  /\ 2018 <= 2023
  /\ Forall (fun p => forall y, unicorn_year p = Some y -> 2018 <= y <= 2023)
            sample_prepared.
Proof.
  assert (Hlo : year_min sample_prepared = Some 2018) by (vm_compute; reflexivity).
  assert (Hhi : year_max sample_prepared = Some 2023) by (vm_compute; reflexivity).
  destruct (slider_bounds sample_prepared) as (_ & _ & H).
  destruct (H 2018 2023 Hlo Hhi) as (H1 & _ & _ & H4).
  auto.
Defined.

(** ** What the bars add up to *)

(** Over values of different groups, a value counts for one of them at
    most, and for one exactly when its group is among them. *)
Lemma hits_NoDup (keys : list cell) (v : cell) :
  NoDup (map key keys) ->
  fold_right Z.add 0 (map (fun g => if same_group v g then 1 else 0) keys)
  = if in_dec cell_eq_dec (key v) (map key keys) then 1 else 0.
Proof.
  induction keys as [| g keys IH]; simpl; [reflexivity |].
  intros H. inversion H as [| ? ? Hg Hk]; subst.
  rewrite (IH Hk). unfold same_group.
  destruct (cell_eq_dec (key g) (key v)) as [E | Hne].
  - rewrite <- E, cell_eqb_refl.
    destruct (in_dec cell_eq_dec (key g) (map key keys));
      [contradiction | reflexivity].
  - rewrite cell_eqb_neq by congruence.
    destruct (in_dec cell_eq_dec (key v) (map key keys)); reflexivity.
Qed.

Lemma group_count_cons (p : PreparedRow) (df : list PreparedRow) (y : column)
    (g : cell) :
  Z.of_nat (group_count (p :: df) y g)
  = (if same_group (get p y) g then 1 else 0) + Z.of_nat (group_count df y g).
Proof.
  unfold group_count, group. simpl.
  destruct (same_group (get p y) g); simpl List.length; lia.
Qed.

Lemma counts_add_up (keys : list cell) (df : list PreparedRow) (y : column) :
  NoDup (map key keys) ->
  (forall p, In p df -> In (key (get p y)) (map key keys)) ->
  fold_right Z.add 0 (map (fun g => Z.of_nat (group_count df y g)) keys)
  = Z.of_nat (List.length df).
Proof.
  intros Hnd. induction df as [| p df IH]; intros Hin.
  - clear. induction keys as [| g keys IH]; simpl in *; [reflexivity | lia].
  - assert (E : forall l,
               fold_right Z.add 0
                 (map (fun g => Z.of_nat (group_count (p :: df) y g)) l)
               = fold_right Z.add 0
                   (map (fun g => if same_group (get p y) g then 1 else 0) l)
                 + fold_right Z.add 0
                     (map (fun g => Z.of_nat (group_count df y g)) l)).
    { induction l as [| g l IHl]; simpl; [reflexivity |].
      rewrite IHl, group_count_cons. lia. }
    rewrite E, (@hits_NoDup keys _ Hnd), IH
      by (intros q Hq; apply Hin; now right).
    destruct (in_dec cell_eq_dec (key (get p y)) (map key keys)) as [_ | Hn].
    + simpl List.length. lia.
    + exfalso. apply Hn, Hin. now left.
Qed.

(** The bars of a chart stand for different groups, each shown by a value
    of the column. *)
Lemma bar_chart_keys_spec (df : list PreparedRow) (y x : column) (f : func) :
  NoDup (map fst (bar_chart df y x f))
  /\ forall g, In g (map fst (bar_chart df y x f)) ->
               exists p, In p df /\ get p y = g.
Proof.
  destruct (bar_chart_groups df y x) as (_ & Hnd & _ & Hin).
  pose proof (bar_chart_Subseq df y x x f) as Q.
  rewrite bar_chart_count_keys in Hnd, Hin, Q.
  split.
  - rewrite bar_chart_keys. apply NoDup_filter.
    exact (NoDup_map_inv _ _ Hnd).
  - intros g Hg. apply Hin. exact (@Subseq_incl _ _ _ g Q Hg).
Qed.

(** The count chart accounts for every row once: the numbers its bars draw
    add up to the number of rows of the table, the figure shown as "Total
    Unicorns" when the table is the whole prepared table. *)
Theorem count_bars_add_up (df : list PreparedRow) (y x : column) :
  total_count (bar_chart df y x Count) = Z.of_nat (List.length df).
Proof.
  destruct (bar_chart_groups df y x) as (_ & Hnd & Hcov & _).
  rewrite <- (@counts_add_up (map fst (bar_chart df y x Count)) df y Hnd).
  - unfold total_count. rewrite bar_chart_count, !map_map. reflexivity.
  - intros p Hp. destruct (Hcov p Hp) as (g & Hg & <-).
    apply in_map_iff. eauto.
Qed.

Lemma numbers_nil (l : list cell) :
  Forall (fun c => missing c = true) l -> numbers l = [].
Proof.
  induction 1 as [| c l Hc _ IH]; simpl; [reflexivity |].
  destruct c as [| s | v | z]; simpl in *; try discriminate; trivial.
  now rewrite Hc.
Qed.

Lemma numbers_not_nil (l : list cell) :
  Exists (fun c => missing c = false) l -> numbers l <> [].
Proof.
  induction 1 as [c l Hc | c l _ IH]; simpl.
  - destruct c as [| s | v | z]; simpl in *; try discriminate.
    now rewrite Hc.
  - destruct (valid c); [discriminate | exact IH].
Qed.

(** The charts laid side by side line up, but for gaps.  For one grouping
    column the bars of every chart are bars of the count chart, in its
    order, and the count chart is the same whatever column is counted.
    Every bar stands for at least one row, and the count chart has no bar
    exactly when the table is empty.  A sum chart can have fewer bars: over
    a column of numbers, a group in which every value is null or NaN has no
    bar, and a group that holds a number has the bar of its sum when the
    sum is finite. *)
Theorem bars_line_up (df : list PreparedRow) (y x x' : column) (f : func) :
  Subseq (map fst (bar_chart df y x f)) (map fst (bar_chart df y x' Count))
  /\ map fst (bar_chart df y x Count) = map fst (bar_chart df y x' Count)
  /\ Forall (fun g => (1 <= group_count df y g)%nat)
            (map fst (bar_chart df y x f))
  /\ (bar_chart df y x Count = [] <-> df = [])
  /\ (discrete y = true -> numeric x = true ->
      forall g, In g (map fst (bar_chart df y x' Count)) ->
        (Forall (fun r => missing (get r x) = true) (group df y g) ->
         ~ In g (map fst (bar_chart df y x Sum)))
        /\ (Exists (fun r => missing (get r x) = false) (group df y g) ->
            exists total,
              sum_of (map (fun r => get r x) (group df y g)) = Some total
              /\ (F64.is_finite total = true ->
                  In (g, Num total) (bar_chart df y x Sum)))).
Proof.
  destruct (bar_chart_keys_spec df y x f) as [_ Hin].
  split; [apply bar_chart_Subseq |].
  split; [now rewrite !bar_chart_count_keys |].
  split; [| split].
  - apply Forall_forall. intros g Hg.
    apply Hin in Hg as (p & Hp & <-).
    unfold group_count, group.
    assert (I : In p (List.filter (fun r => same_group (get r y) (get p y)) df))
      by (apply filter_In; split; [exact Hp | apply same_group_refl]).
    destruct (List.filter _ df); [contradiction | simpl; lia].
  - split.
    + intros E. destruct df as [| p df]; [reflexivity | exfalso].
      destruct (bar_chart_groups (p :: df) y x) as (_ & _ & Hcov & _).
      destruct (Hcov p) as (g & Hg & _); [now left |].
      rewrite E in Hg. contradiction.
    + intros ->. reflexivity.
  - intros _ _ g Hg. rewrite bar_chart_count_keys in Hg. split.
    + intros Hm Hs. rewrite bar_chart_keys in Hs.
      apply filter_In in Hs as [_ Hs]. unfold aggregate, sum_of in Hs.
      rewrite numbers_nil in Hs; [discriminate |].
      apply Forall_forall. intros c Hc.
      apply in_map_iff in Hc as (r & <- & Hr).
      rewrite Forall_forall in Hm. now apply Hm.
    + intros Hm.
      assert (N : numbers (map (fun r => get r x) (group df y g)) <> []).
      { apply numbers_not_nil. apply Exists_exists in Hm as (r & Hr & Hm).
        apply Exists_exists. exists (get r x). split; [| exact Hm].
        apply in_map_iff. eauto. }
      unfold sum_of.
      destruct (numbers (map (fun r => get r x) (group df y g)))
        as [| v vs] eqn:Ev; [congruence |].
      eexists. split; [reflexivity |]. intros Hf.
      unfold bar_chart. cbv zeta. apply in_flat_map.
      exists g. split; [exact Hg |].
      unfold bar, aggregate, sum_of. rewrite Ev, Hf. now left.
Qed.

Lemma bars_line_up_witness :
  ~ In (Str "Germany") (map fst (bar_chart signed_prepared Country RaisedUsd Sum))
  /\ ~ In (Str "Estonia")
          (map fst (bar_chart signed_prepared Country RaisedUsd Sum)).
Proof.
  destruct (bars_line_up signed_prepared Country RaisedUsd Company Count)
    as (_ & _ & _ & _ & H).
  specialize (H eq_refl eq_refl).
  split.
  - apply (H (Str "Germany")); [vm_compute; auto |].
    vm_compute. repeat constructor.
  - apply (H (Str "Estonia")); [vm_compute; auto |].
    vm_compute. repeat constructor.
Defined.

(** The table of the three rows with the texts "-$5M", "nan" and no text:
    the count chart has three bars, the sum chart of [raised_usd] one. *)
Lemma sum_chart_gaps :
  bar_chart signed_prepared Country Company Count
  = [(Str "France", Int 1); (Str "Estonia", Int 1); (Str "Germany", Int 1)]
  /\ map fst (bar_chart signed_prepared Country RaisedUsd Sum) = [Str "France"].
Proof. split; vm_compute; reflexivity. Qed.

(** A null and the text "null" are one group, shown by the value met
    first. *)
Lemma null_and_null_text :
  bar_chart
    [ mkRow (Some "A") (Some "France") None (Some "Active")
            None None None None;
      mkRow (Some "B") (Some "France") (Some "AI") (Some "Active")
            None None None None;
      mkRow (Some "C") (Some "France") (Some "null") (Some "Active")
            None None None None ]
    Vertical Company Count
  = [(Null, Int 2); (Str "AI", Int 1)].
Proof. vm_compute; reflexivity. Qed.

(** ** [combine_bar_charts] *)

Lemma fold_hor_HConcat {A : Type} (plots acc : list (chart A)) :
  fold_left hor plots (HConcat acc) = HConcat (acc ++ plots).
Proof.
  revert acc; induction plots as [| p plots IH]; intros acc; simpl.
  - now rewrite app_nil_r.
  - rewrite IH, <- app_assoc. reflexivity.
Qed.

(** Called with no chart, [combine_bar_charts] returns the empty vertical
    concatenation it starts from.  Called with charts, it returns one
    horizontal concatenation whose first panel is that empty vertical
    concatenation and whose other panels are the charts given, each as it
    was given and in the order of the call.  The configuration is the same
    in both cases: no stroke around the views, spacing 10, label padding 70
    and labels aligned left on the y axis. *)
Theorem combine_bar_charts_panels {A : Type} (plots : list (chart A)) :
  fst (combine_bar_charts plots)
  = match plots with
    | [] => VConcat []
    | _ => HConcat (VConcat [] :: plots)
    end
  /\ snd (combine_bar_charts plots) = mkConfig None 10 70 "left".
Proof.
  split; [| reflexivity].
  unfold combine_bar_charts. simpl fst.
  destruct plots as [| p plots]; [reflexivity |].
  simpl. now rewrite fold_hor_HConcat.
Qed.

(** ** The order of strings *)

Lemma ascii_compare_refl (a : ascii) : Ascii.compare a a = Eq.
Proof.
  unfold Ascii.compare. apply N.compare_refl.
Qed.

Lemma str_compare_refl (s : string) : String.compare s s = Eq.
Proof.
  induction s as [| a s IH]; simpl; [reflexivity |].
  now rewrite ascii_compare_refl.
Qed.

Lemma str_compare_trans (a b c : string) :
  String.compare a b = Lt -> String.compare b c = Lt -> String.compare a c = Lt.
Proof.
  revert b c; induction a as [| x a IH]; intros [| y b] [| z c]; simpl;
    try discriminate; trivial.
  destruct (Ascii.compare x y) eqn:Exy; try discriminate;
    destruct (Ascii.compare y z) eqn:Eyz; try discriminate; intros H1 H2.
  - apply Ascii.compare_eq_iff in Exy, Eyz. subst.
    rewrite ascii_compare_refl. eauto.
  - apply Ascii.compare_eq_iff in Exy. subst. now rewrite Eyz.
  - apply Ascii.compare_eq_iff in Eyz. subst. now rewrite Exy.
  - unfold Ascii.compare in *. rewrite N.compare_lt_iff in *.
    assert (L : (N_of_ascii x < N_of_ascii z)%N) by lia.
    apply N.compare_lt_iff in L. now rewrite L.
Qed.

Lemma str_lt_irrefl (a : string) : ~ str_lt a a.
Proof.
  unfold str_lt, String.ltb. now rewrite str_compare_refl.
Qed.

Lemma str_lt_trans (a b c : string) : str_lt a b -> str_lt b c -> str_lt a c.
Proof.
  unfold str_lt, String.ltb. intros H1 H2.
  destruct (String.compare a b) eqn:E1; try discriminate.
  destruct (String.compare b c) eqn:E2; try discriminate.
  now rewrite (@str_compare_trans a b c E1 E2).
Qed.

Lemma str_lt_total (a b : string) :
  a <> b -> String.ltb b a = false -> str_lt a b.
Proof.
  unfold str_lt, String.ltb. intros Hne H.
  rewrite String.compare_antisym in H.
  destruct (String.compare a b) eqn:E; simpl in H; try discriminate; trivial.
  apply String.compare_eq_iff in E. contradiction.
Qed.

(** ** Sorting strings *)

Lemma insert_str_In (a x : string) (l : list string) :
  In x (insert_str a l) <-> x = a \/ In x l.
Proof.
  induction l as [| b l IH]; simpl; [intuition |].
  destruct (String.ltb b a); simpl; rewrite ?IH; intuition.
Qed.

Lemma sort_str_In (x : string) (l : list string) :
  In x (sort_str l) <-> In x l.
Proof.
  induction l as [| a l IH]; simpl; [tauto |].
  rewrite insert_str_In, IH. intuition.
Qed.

Lemma insert_str_ascending (a : string) (l : list string) :
  ascending l -> ~ In a l -> ascending (insert_str a l).
Proof.
  unfold ascending. induction 1 as [| b l Hl IH Hb]; simpl; intros Hn.
  - repeat constructor.
  - destruct (String.ltb b a) eqn:E.
    + constructor; [apply IH; tauto |].
      apply Forall_forall. intros x Hx. apply insert_str_In in Hx as [-> | Hx].
      * exact E.
      * rewrite Forall_forall in Hb. now apply Hb.
    + assert (Hab : str_lt a b) by (apply str_lt_total; [intuition | exact E]).
      constructor; [now constructor |].
      constructor; [exact Hab |].
      revert Hb. apply Forall_impl. intros x. now apply str_lt_trans.
Qed.

Lemma sort_str_ascending (l : list string) : NoDup l -> ascending (sort_str l).
Proof.
  induction 1 as [| a l Ha _ IH]; simpl; [constructor |].
  apply insert_str_ascending; [exact IH |]. now rewrite sort_str_In.
Qed.

(** Two ascending lists with the same members are the same list. *)
Lemma ascending_unique (l1 l2 : list string) :
  ascending l1 -> ascending l2 -> (forall x, In x l1 <-> In x l2) -> l1 = l2.
Proof.
  unfold ascending. intros H1; revert l2.
  induction H1 as [| a l1 Hl1 IH Ha]; intros l2 H2 Hm.
  - destruct l2 as [| b l2]; [reflexivity |].
    exfalso. apply (Hm b). now left.
  - destruct H2 as [| b l2 Hl2 Hb].
    + exfalso. apply (Hm a). now left.
    + rewrite Forall_forall in Ha, Hb.
      assert (E : a = b).
      { destruct (proj1 (Hm a) (or_introl eq_refl)) as [E | Ia]; [auto |].
        destruct (proj2 (Hm b) (or_introl eq_refl)) as [E | Ib]; [auto |].
        exfalso. apply (@str_lt_irrefl a).
        apply str_lt_trans with b; auto. }
      subst b. f_equal. apply IH; [exact Hl2 |].
      intros x. split; intros Hx.
      * destruct (proj1 (Hm x) (or_intror Hx)) as [<- | I]; [| exact I].
        exfalso. apply (@str_lt_irrefl a). auto.
      * destruct (proj2 (Hm x) (or_intror Hx)) as [<- | I]; [| exact I].
        exfalso. apply (@str_lt_irrefl a). auto.
Qed.

(** ** The options of the selectors *)

Lemma NoDup_remove_text (a : option string) (l : list (option string)) :
  NoDup l -> NoDup (remove text_eq_dec a l).
Proof.
  induction 1 as [| b l Hb _ IH]; simpl; [constructor |].
  destruct (text_eq_dec a b); [exact IH |].
  constructor; [| exact IH].
  intros Hin. apply in_remove in Hin as [Hin _]. contradiction.
Qed.

Lemma unique_In (l : list (option string)) (v : option string) :
  In v (unique l) <-> In v l.
Proof.
  induction l as [| a l IH]; simpl; [tauto |].
  split.
  - intros [-> | H]; [now left |].
    apply in_remove in H as [H _]. right. now apply IH.
  - intros [-> | H]; [now left |].
    destruct (text_eq_dec a v) as [-> | Hne]; [now left |].
    right. apply in_in_remove; [congruence | now apply IH].
Qed.

Lemma unique_NoDup (l : list (option string)) : NoDup (unique l).
Proof.
  induction l as [| a l IH]; simpl; constructor.
  - apply remove_In.
  - now apply NoDup_remove_text.
Qed.

Lemma insert_sorted_Some (a : string) (l : list string) :
  insert_sorted (Some a) (map Some l) = Returned (map Some (insert_str a l)).
Proof.
  induction l as [| b l IH]; simpl; [reflexivity |].
  destruct (String.ltb b a); [| reflexivity]. now rewrite IH.
Qed.

Lemma sorted_Some (l : list string) :
  sorted (map Some l) = Returned (map Some (sort_str l)).
Proof.
  induction l as [| a l IH]; simpl; [reflexivity |].
  rewrite IH. apply insert_sorted_Some.
Qed.

Lemma insert_sorted_length (a : option string) (l r : list (option string)) :
  insert_sorted a l = Returned r -> List.length r = S (List.length l).
Proof.
  revert r; induction l as [| b l IH]; simpl; intros r H.
  - inversion H; reflexivity.
  - destruct (py_lt b a) as [[|] |]; try discriminate.
    + destruct (insert_sorted a l) as [r' |]; [| discriminate].
      inversion H; subst. simpl. now rewrite (IH r').
    + inversion H; reflexivity.
Qed.

Lemma sorted_length (l r : list (option string)) :
  sorted l = Returned r -> List.length r = List.length l.
Proof.
  revert r; induction l as [| a l IH]; simpl; intros r H.
  - inversion H; reflexivity.
  - destruct (sorted l) as [r' |]; [| discriminate].
    apply insert_sorted_length in H. rewrite H. f_equal. now apply IH.
Qed.

Lemma py_lt_None (a b : option string) :
  a = None \/ b = None -> py_lt a b = TypeError.
Proof.
  intros [-> | ->]; [reflexivity | now destruct a].
Qed.

(** With a null among two values or more, [sorted] raises. *)
Lemma sorted_None_raises (l : list (option string)) :
  In None l -> (2 <= List.length l)%nat -> sorted l = TypeError.
Proof.
  induction l as [| a l IH]; simpl; [contradiction |].
  intros Hin Hlen.
  destruct (sorted l) as [r |] eqn:E; [| reflexivity].
  pose proof (sorted_length _ E) as Hr.
  destruct r as [| b r]; [simpl in Hr; lia |].
  simpl. rewrite py_lt_None; [reflexivity |].
  destruct a as [x |]; [| now right]. left.
  destruct Hin as [Hin | Hin]; [discriminate |].
  destruct l as [| c [| c' l]]; [contradiction | |].
  - destruct Hin as [-> | []]. simpl in E. now inversion E.
  - assert (T : @Returned (list (option string)) (b :: r) = TypeError)
      by (apply IH; [exact Hin | simpl; lia]).
    discriminate T.
Qed.

Lemma all_Some (l : list (option string)) :
  ~ In None l -> exists names, l = map Some names.
Proof.
  induction l as [| a l IH]; simpl; intros H.
  - exists []. reflexivity.
  - destruct IH as (names & ->); [tauto |].
    destruct a as [x |]; [| tauto]. exists (x :: names). reflexivity.
Qed.

Lemma only_None (l : list (option string)) :
  NoDup l -> (forall s, ~ In (Some s) l) -> l = [] \/ l = [None].
Proof.
  intros Hnd Hs. destruct l as [| a l]; [now left | right].
  destruct a as [x |]; [exfalso; apply (Hs x); now left |].
  inversion Hnd as [| ? ? Hn Hnd']; subst.
  destruct l as [| b l]; [reflexivity | exfalso].
  destruct b as [y |]; [apply (Hs y); simpl; auto | apply Hn; now left].
Qed.

Lemma sorted_raises_iff (l : list (option string)) :
  NoDup l ->
  (sorted l = TypeError <-> In None l /\ exists s, In (Some s) l).
Proof.
  intros Hnd. split.
  - intros H.
    assert (Hn : In None l).
    { destruct (in_dec text_eq_dec None l) as [I | I]; [exact I |].
      apply all_Some in I as (names & ->).
      rewrite sorted_Some in H. discriminate. }
    split; [exact Hn |].
    destruct l as [| a [| b l]]; [contradiction | simpl in H; discriminate |].
    destruct a as [x |]; [exists x; now left |].
    destruct b as [y |]; [exists y; simpl; auto |].
    inversion Hnd as [| ? ? Hh _]; subst. exfalso. apply Hh. now left.
  - intros (Hn & s & Hs). apply sorted_None_raises; [exact Hn |].
    destruct l as [| a [| b l]]; simpl; [contradiction | | lia].
    destruct Hn as [-> | []], Hs as [E | []]. discriminate.
Qed.

Lemma values_unique {A : Type} (col : A -> option string) (df : list A)
    (v : option string) :
  In v (unique (map col df)) <-> exists p, In p df /\ col p = v.
Proof.
  rewrite unique_In, in_map_iff. split; intros (p & H1 & H2); eauto.
Qed.

(** The options of a selector cannot be built exactly when the column holds
    a null together with a value: [sorted] then compares [None] with a
    string and raises [TypeError].  A column without null, or a column of
    nulls only, gives its options. *)
Theorem selectbox_options_raise_iff (col : PreparedRow -> option string)
    (df : list PreparedRow) :
  selectbox_options col df = TypeError <->
  (exists p, In p df /\ col p = None)
  /\ (exists p s, In p df /\ col p = Some s).
Proof.
  unfold selectbox_options.
  pose proof (sorted_raises_iff (unique_NoDup (map col df))) as H.
  destruct (sorted (unique (map col df))) as [r |].
  - split; [discriminate |].
    intros [(p & Hp & Ep) (q & s & Hq & Eq)].
    assert (E : @Returned (list (option string)) r = TypeError);
      [| discriminate].
    apply H. split; [apply values_unique; eauto |].
    exists s. apply values_unique; eauto.
  - split; [| reflexivity]. intros _.
    destruct (proj1 H eq_refl) as [Hn (s & Hs)].
    apply values_unique in Hn as (p & Hp & Ep).
    apply values_unique in Hs as (q & Hq & Eq).
    split; [exists p; auto | exists q, s; auto].
Qed.

(** On a column without null the options are "All" followed by the values
    of the column, each once, in ascending order. *)
Lemma selectbox_options_values (col : PreparedRow -> option string)
    (df : list PreparedRow) :
  (forall p, In p df -> col p <> None) ->
  exists names,
    selectbox_options col df = Returned (Some "All" :: map Some names)
    /\ ascending names
    /\ (forall c, In c names <-> exists p, In p df /\ col p = Some c).
Proof.
  intros Hcol. unfold selectbox_options.
  assert (Hn : ~ In None (unique (map col df))).
  { intros H. apply values_unique in H as (p & Hp & Ep).
    exact (Hcol p Hp Ep). }
  destruct (all_Some _ Hn) as (names & E).
  pose proof (unique_NoDup (map col df)) as Hnd. rewrite E in Hnd.
  assert (Hnd' : NoDup names).
  { clear - Hnd. induction names as [| a names IH]; [constructor |].
    simpl in Hnd. inversion Hnd as [| ? ? Ha Hnd']; subst.
    constructor; [| now apply IH].
    intros I. apply Ha. now apply in_map. }
  exists (sort_str names). rewrite E, sorted_Some.
  split; [reflexivity | split; [now apply sort_str_ascending |]].
  intros c. rewrite sort_str_In, <- values_unique, E.
  rewrite in_map_iff. split.
  - intros H. eauto.
  - intros (x & Hx & I). inversion Hx; now subst.
Qed.

Lemma All_not_listed : ~ In "All" european_countries.
Proof.
  simpl. intros H.
  repeat (destruct H as [H | H]; [discriminate |]). contradiction.
Qed.

(** For every prepared table the country selector gets its options: "All",
    then the countries of the table, each once, in ascending order.  A
    country is offered exactly when some prepared row has it, and none of
    them is "All", so the first entry is the only one that selects every
    row. *)
Theorem country_options (df : list RawRow) (out : list PreparedRow) :
  prepare_dataset df = Ok out ->
  exists names,
    selectbox_options (@country _ _ _) out
    = Returned (Some "All" :: map Some names)
    /\ ascending names
    /\ (forall c, In c names <-> exists p, In p out /\ country p = Some c)
    /\ ~ In "All" names.
Proof.
  intros H. apply prepare_dataset_Ok_iff in H.
  assert (F : Forall (fun p => prepared_country (country p)) out).
  { apply Forall2_filter_l in H. revert H. apply Forall2_Forall_r.
    intros r p [Hr Hp]. now apply (prepared_from_passes Hr). }
  rewrite Forall_forall in F.
  destruct (@selectbox_options_values (@country _ _ _) out)
    as (names & E & Hs & Hm).
  { intros p Hp Ep. destruct (F p Hp) as [Hc | (s & Hc & _)];
      rewrite Ep in Hc; discriminate. }
  exists names. repeat split; trivial; try apply Hm.
  intros I. apply Hm in I as (p & Hp & Ep).
  destruct (F p Hp) as [Hc | (s & Hc & Hin & _)]; rewrite Ep in Hc.
  - discriminate.
  - inversion Hc; subst s. now apply All_not_listed.
Qed.

Lemma country_options_witness :
  prepare_dataset sample_table = Ok sample_prepared
  /\ exists names,
       selectbox_options (@country _ _ _) sample_prepared
       = Returned (Some "All" :: map Some names)
       /\ ascending names
       /\ (forall c, In c names
                     <-> exists p, In p sample_prepared /\ country p = Some c)
       /\ ~ In "All" names.
Proof.
  assert (E : prepare_dataset sample_table = Ok sample_prepared)
    by (vm_compute; reflexivity).
  split; [exact E | exact (country_options sample_table E)].
Defined.

(** The options of the example: "UK" sorts after "Sweden". *)
Lemma country_options_example :
  selectbox_options (@country _ _ _) sample_prepared
  = Returned [Some "All"; Some "France"; Some "Sweden"; Some "UK"]
  /\ selectbox_options (@vertical _ _ _) null_vertical_prepared = TypeError.
Proof. split; vm_compute; reflexivity. Qed.

Lemma NoDup_map_Some (names : list string) :
  NoDup (map Some names) -> NoDup names.
Proof.
  induction names as [| a names IH]; simpl; intros H; [constructor |].
  inversion H as [| ? ? Ha Hnd]; subst.
  constructor; [| now apply IH]. intros I. apply Ha. now apply in_map.
Qed.

Lemma sorted_same_members (u u' : list (option string)) :
  NoDup u -> NoDup u' -> (forall v, In v u <-> In v u') ->
  sorted u = sorted u'.
Proof.
  intros Hu Hu' Hm.
  destruct (sorted u) as [r |] eqn:E; destruct (sorted u') as [r' |] eqn:E';
    trivial.
  - destruct (in_dec text_eq_dec None u) as [I | I].
    + assert (S : forall s, ~ In (Some s) u).
      { intros s Hs.
        assert (T : sorted u = TypeError)
          by (apply sorted_raises_iff; eauto).
        congruence. }
      assert (S' : forall s, ~ In (Some s) u')
        by (intros s Hs; apply (S s), Hm, Hs).
      destruct (only_None Hu S) as [-> | ->]; [contradiction |].
      destruct (only_None Hu' S') as [-> | ->]; [| congruence].
      exfalso. apply (Hm None). now left.
    + assert (I' : ~ In None u') by (intros H; apply I, Hm, H).
      apply all_Some in I as (names & ->).
      apply all_Some in I' as (names' & ->).
      rewrite sorted_Some in E, E'. rewrite <- E, <- E'. do 2 f_equal.
      apply NoDup_map_Some in Hu, Hu'.
      apply ascending_unique; try now apply sort_str_ascending.
      intros x. rewrite !sort_str_In. split; intros Hx.
      * assert (H : In (Some x) (map Some names')) by (apply Hm, in_map, Hx).
        apply in_map_iff in H as (y & Ey & Hy). now inversion Ey; subst.
      * assert (H : In (Some x) (map Some names)) by (apply Hm, in_map, Hx).
        apply in_map_iff in H as (y & Ey & Hy). now inversion Ey; subst.
  - exfalso. apply (sorted_raises_iff Hu') in E' as (Hn & s & Hs).
    assert (T : sorted u = TypeError).
    { apply sorted_raises_iff; [exact Hu |]. split; [now apply Hm |].
      exists s. now apply Hm. }
    congruence.
  - exfalso. apply (sorted_raises_iff Hu) in E as (Hn & s & Hs).
    assert (T : sorted u' = TypeError).
    { apply sorted_raises_iff; [exact Hu' |]. split; [now apply Hm |].
      exists s. now apply Hm. }
    congruence.
Qed.

(** The options depend on the values of the column only: two tables whose
    columns hold the same values, in whatever order and number, get the same
    options (or both raise).  In particular the order in which [unique]
    returns the values plays no part. *)
Theorem selectbox_options_same_values (col : PreparedRow -> option string)
    (df df' : list PreparedRow) :
  (forall v, (exists p, In p df /\ col p = v)
             <-> (exists p, In p df' /\ col p = v)) ->
  selectbox_options col df = selectbox_options col df'.
Proof.
  intros Hm. unfold selectbox_options.
  rewrite (@sorted_same_members (unique (map col df)) (unique (map col df')));
    [reflexivity | apply unique_NoDup | apply unique_NoDup |].
  intros v. rewrite !values_unique. apply Hm.
Qed.

Lemma selectbox_options_same_values_witness :
  selectbox_options (@vertical _ _ _) sample_prepared
  = selectbox_options (@vertical _ _ _) (rev sample_prepared).
Proof.
  apply selectbox_options_same_values.
  intros v. split; intros (p & Hp & E); exists p;
    (split; [| exact E]); [apply in_rev in Hp | apply in_rev]; exact Hp.
Defined.

(** ** Characters that a number cannot hold *)

Lemma count_char_app (c : ascii) (a b : string) :
  count_char c (a ++ b) = (count_char c a + count_char c b)%nat.
Proof.
  induction a as [| x a IH]; simpl; [reflexivity |]. rewrite IH. lia.
Qed.

Lemma count_char_digits (c : ascii) (d : string) :
  Text.is_digit c = false -> Text.all_digits d = true -> count_char c d = 0%nat.
Proof.
  intros Hc. induction d as [| x d IH]; simpl; [reflexivity |].
  rewrite andb_true_iff. intros [Hx Hd].
  destruct (Ascii.eqb_spec x c) as [-> | _]; [congruence | now apply IH].
Qed.

Lemma count_char_lowercase (c : ascii) (s : string) :
  (count_char c s <= count_char (Text.lower c) (Text.lowercase s))%nat.
Proof.
  induction s as [| x s IH]; simpl; [lia |].
  destruct (Ascii.eqb_spec x c) as [-> | _].
  - rewrite Ascii.eqb_refl. lia.
  - destruct (Ascii.eqb (Text.lower x) (Text.lower c)); lia.
Qed.

Lemma span_digits_spec (s d r : string) :
  Text.span_digits s = (d, r) -> s = (d ++ r)%string /\ Text.all_digits d = true.
Proof.
  revert d r; induction s as [| x s IH]; simpl; intros d r H.
  - inversion H; auto.
  - destruct (Text.is_digit x) eqn:Hx.
    + destruct (Text.span_digits s) as [d' r'].
      destruct (IH d' r' eq_refl) as [-> Hd]. inversion H; subst.
      simpl. now rewrite Hx.
    + inversion H; auto.
Qed.

Lemma count_char_zero_cons (c x : ascii) (s : string) :
  count_char c (String x s) = 0%nat ->
  Ascii.eqb x c = false /\ count_char c s = 0%nat.
Proof.
  simpl. destruct (Ascii.eqb x c); [discriminate | auto].
Qed.

Lemma alien_spec (c : ascii) :
  alien c = true ->
  Text.is_digit c = false
  /\ (Ascii.eqb "." c = false /\ Ascii.eqb "e" c = false
      /\ Ascii.eqb "E" c = false /\ Ascii.eqb "+" c = false
      /\ Ascii.eqb "-" c = false)
  /\ count_char (Text.lower c) "nanfinity" = 0%nat.
Proof.
  unfold alien. rewrite !andb_true_iff, negb_true_iff, !Nat.eqb_eq.
  intros [[Hd Hs] Hl]. split; [exact Hd | split; [| exact Hl]].
  apply count_char_zero_cons in Hs as [H1 Hs].
  apply count_char_zero_cons in Hs as [H2 Hs].
  apply count_char_zero_cons in Hs as [H3 Hs].
  apply count_char_zero_cons in Hs as [H4 Hs].
  apply count_char_zero_cons in Hs as [H5 Hs]. auto.
Qed.

Lemma strip_sign_count (c : ascii) (s : string) :
  alien c = true ->
  count_char c (snd (Cast.strip_sign s)) = count_char c s.
Proof.
  intros Hc. destruct s as [| x s]; [reflexivity |].
  apply alien_spec in Hc as (_ & (_ & _ & _ & Hp & Hm) & _).
  destruct (Ascii.eqb_spec x "-") as [-> | Hx1].
  { change (snd (Cast.strip_sign (String "-" s))) with s.
    change (count_char c (String "-" s))
      with ((if Ascii.eqb "-" c then 1 else 0) + count_char c s)%nat.
    now rewrite Hm. }
  destruct (Ascii.eqb_spec x "+") as [-> | Hx2].
  { change (snd (Cast.strip_sign (String "+" s))) with s.
    change (count_char c (String "+" s))
      with ((if Ascii.eqb "+" c then 1 else 0) + count_char c s)%nat.
    now rewrite Hp. }
  assert (E : Cast.strip_sign (String x s) = (false, String x s)); [| now rewrite E].
  clear - Hx1 Hx2.
  destruct x as [[] [] [] [] [] [] [] []]; try reflexivity; congruence.
Qed.

Lemma exponent_count (c : ascii) (s : string) (e : Z) :
  alien c = true -> Cast.exponent s = Some (e, EmptyString) ->
  count_char c s = 0%nat.
Proof.
  intros Hc. destruct s as [| x t]; [reflexivity |].
  unfold Cast.exponent.
  destruct (Ascii.eqb x "e" || Ascii.eqb x "E")%bool eqn:Hx; [| discriminate].
  pose proof (@strip_sign_count c t Hc) as Hs.
  destruct (Cast.strip_sign t) as [neg t1]. simpl in Hs.
  destruct (Text.span_digits t1) as [d t2] eqn:Hd.
  apply span_digits_spec in Hd as [-> Hd].
  destruct d as [| y d]; [discriminate |].
  intros H; inversion H; subst t2.
  apply alien_spec in Hc as (Hdig & (_ & He & HE & _ & _) & _).
  change (count_char c (String x t))
    with ((if Ascii.eqb x c then 1 else 0) + count_char c t)%nat.
  rewrite <- Hs, count_char_app, (@count_char_digits c _ Hdig Hd).
  apply orb_true_iff in Hx as [Hx | Hx]; apply Ascii.eqb_eq in Hx; subst x;
    rewrite ?He, ?HE; reflexivity.
Qed.

(** A text that converts to a number holds no alien character. *)
Lemma parse_f64_no_alien (c : ascii) (s : string) (x : F64.t) :
  alien c = true -> Cast.parse_f64 s = Some x -> count_char c s = 0%nat.
Proof.
  intros Hc. unfold Cast.parse_f64.
  pose proof (@strip_sign_count c s Hc) as Hs.
  destruct (Cast.strip_sign s) as [neg s1]. simpl in Hs. rewrite <- Hs.
  destruct (@alien_spec c Hc) as (Hdig & (Hdot & _) & Hlet).
  pose proof (count_char_lowercase c s1) as Hlow.
  assert (Hn : count_char (Text.lower c) "nan" = 0%nat
               /\ count_char (Text.lower c) "inf" = 0%nat
               /\ count_char (Text.lower c) "infinity" = 0%nat).
  { clear - Hlet.
    apply count_char_zero_cons in Hlet as [H1 Hlet].
    apply count_char_zero_cons in Hlet as [H2 Hlet].
    apply count_char_zero_cons in Hlet as [_ Hlet].
    apply count_char_zero_cons in Hlet as [H4 Hlet].
    apply count_char_zero_cons in Hlet as [H5 Hlet].
    apply count_char_zero_cons in Hlet as [_ Hlet].
    apply count_char_zero_cons in Hlet as [_ Hlet].
    apply count_char_zero_cons in Hlet as [H8 Hlet].
    apply count_char_zero_cons in Hlet as [H9 _].
    cbn [count_char]. now rewrite H1, H2, H4, H5, H8, H9. }
  destruct Hn as (Hnan & Hinf & Hinfinity).
  destruct (String.eqb_spec (Text.lowercase s1) "nan") as [E | _].
  { intros _. rewrite E in Hlow. lia. }
  destruct (String.eqb_spec (Text.lowercase s1) "inf") as [E | _].
  { intros _. rewrite E in Hlow. lia. }
  destruct (String.eqb_spec (Text.lowercase s1) "infinity") as [E | _].
  { intros _. rewrite E in Hlow. lia. }
  simpl orb. cbv iota.
  destruct (Text.span_digits s1) as [ip s2] eqn:Hip.
  apply span_digits_spec in Hip as [-> Hip].
  rewrite count_char_app, (@count_char_digits c _ Hdig Hip).
  assert (T : forall fp s3 e,
             match s2 with
             | String "." t => Text.span_digits t
             | _ => (EmptyString, s2)
             end = (fp, s3) ->
             Cast.exponent s3 = Some (e, EmptyString) ->
             count_char c s2 = 0%nat).
  { intros fp s3 e H He.
    assert (D : (exists t, s2 = String "." t /\ Text.span_digits t = (fp, s3))
                \/ (fp, s3) = (EmptyString, s2)).
    { destruct s2 as [| y t]; [right; now inversion H |].
      destruct (Ascii.eqb_spec y ".") as [-> | Hy]; [left; eauto |].
      right. rewrite <- H. clear - Hy.
      destruct y as [[] [] [] [] [] [] [] []]; try reflexivity; congruence. }
    destruct D as [(t & -> & Ht) | E].
    - apply span_digits_spec in Ht as [-> Hfp].
      change (count_char c (String "." (fp ++ s3)))
        with ((if Ascii.eqb "." c then 1 else 0) + count_char c (fp ++ s3))%nat.
      rewrite Hdot, count_char_app, (@count_char_digits c _ Hdig Hfp).
      now rewrite (@exponent_count c _ _ Hc He).
    - inversion E; subst. exact (@exponent_count c _ _ Hc He). }
  destruct (match s2 with
            | String "." t => Text.span_digits t
            | _ => (EmptyString, s2)
            end) as [fp s3] eqn:Hfp.
  destruct (ip ++ fp)%string; [discriminate |].
  destruct (Cast.exponent s3) as [[e [| y rest]] |] eqn:He; try discriminate.
  intros _. now rewrite (T fp s3 e eq_refl He).
Qed.

(** ** Only the first occurrence of a symbol is replaced *)

Lemma prefix_split (pat s : string) :
  prefix pat s = true -> s = (pat ++ Text.drop (String.length pat) s)%string.
Proof.
  revert s; induction pat as [| a pat IH]; intros s.
  - intros _. reflexivity.
  - destruct s as [| b s]; simpl; [discriminate |].
    destruct (ascii_dec a b) as [-> | _]; [| discriminate].
    intros H. f_equal. now apply IH.
Qed.

Lemma count_char_str_replace (c : ascii) (pat value s : string) :
  (count_char c s
   <= count_char c (Text.str_replace pat value s) + count_char c pat)%nat.
Proof.
  induction s as [| x s IH]; [simpl; lia |].
  change (Text.str_replace pat value (String x s))
    with (if prefix pat (String x s)
          then (value ++ Text.drop (String.length pat) (String x s))%string
          else String x (Text.str_replace pat value s)).
  destruct (prefix pat (String x s)) eqn:E.
  - apply prefix_split in E. rewrite E at 1. rewrite !count_char_app. lia.
  - simpl. lia.
Qed.

(** [str.replace] replaces the first occurrence only, so a money text with
    two "$", two "M" or two "B" still holds the symbol after the
    substitutions, and the strict cast raises on it: such a text on a kept
    row aborts the preparation. *)
Theorem repeated_symbol_raises (column s : string) (c : ascii) :
  In c ["$"; "M"; "B"]%char -> (2 <= count_char c s)%nat ->
  currency column (Some s) = Err (ConversionError column).
Proof.
  intros Hc Hs. unfold currency, substitute, str_replace, cast_f64. simpl.
  set (s1 := Text.str_replace "N/A" "0" s).
  set (s2 := Text.str_replace "$" "" s1).
  set (s3 := Text.str_replace "M" "e6" s2).
  set (s4 := Text.str_replace "B" "e9" s3).
  pose proof (count_char_str_replace c "N/A" "0" s) as H1.
  pose proof (count_char_str_replace c "$" "" s1) as H2.
  pose proof (count_char_str_replace c "M" "e6" s2) as H3.
  pose proof (count_char_str_replace c "B" "e9" s3) as H4.
  fold s1 in H1. fold s2 in H2. fold s3 in H3. fold s4 in H4.
  assert (Ha : alien c = true /\ (1 <= count_char c s4)%nat).
  { destruct Hc as [<- | [<- | [<- | []]]]; simpl in H1, H2, H3, H4;
      (split; [reflexivity | lia]). }
  destruct Ha as [Ha Hn].
  destruct (Cast.parse_f64 s4) as [x |] eqn:E; [| reflexivity].
  apply (@parse_f64_no_alien c s4 x Ha) in E. lia.
Qed.

Lemma repeated_symbol_raises_witness :
  currency "raised_usd" (Some "$1.5MM") = Err (ConversionError "raised_usd").
Proof.
  apply (@repeated_symbol_raises "raised_usd" "$1.5MM" "M");
    [simpl; auto | simpl; lia].
Defined.

(** ** Rows are prepared independently *)

Lemma filter_idem {A : Type} (f : A -> bool) (l : list A) :
  List.filter f (List.filter f l) = List.filter f l.
Proof.
  rewrite filter_filter. apply filter_ext. intros a. now destruct (f a).
Qed.

(** The rows that the filters drop play no part at all: the preparation of
    a table is the preparation of its kept rows, with the same result or the
    same error.  A text that does not convert therefore does no harm on a
    row of another country or status. *)
Theorem dropped_rows_do_not_matter (df : list RawRow) :
  prepare_dataset df = prepare_dataset (List.filter passes df).
Proof.
  unfold prepare_dataset. cbv zeta.
  rewrite !df_filter_map. simpl status.
  rewrite !df_filter_twice.
  change (fun r : Row (option string) (option string) unit =>
            holds (fun r0 => is_in (country r0) european_countries) r
            && holds (fun r0 => is_in (status r0) ["Active"; "Exited"]) r)
    with passes.
  now rewrite filter_idem.
Qed.

(** A table made of two parts is prepared exactly when both parts are, and
    its prepared table is then the prepared first part followed by the
    prepared second part: no row changes the value of another. *)
Theorem prepare_dataset_app (df1 df2 : list RawRow) (out : list PreparedRow) :
  prepare_dataset (df1 ++ df2)%list = Ok out <->
  exists out1 out2,
    prepare_dataset df1 = Ok out1 /\ prepare_dataset df2 = Ok out2
    /\ out = (out1 ++ out2)%list.
Proof.
  rewrite prepare_dataset_Ok_iff, filter_app. split.
  - intros H. apply Forall2_app_inv_l in H as (o1 & o2 & H1 & H2 & ->).
    exists o1, o2. now rewrite !prepare_dataset_Ok_iff.
  - intros (o1 & o2 & H1 & H2 & ->).
    apply prepare_dataset_Ok_iff in H1, H2. now apply Forall2_app.
Qed.

(** ** A selected country and the country chart *)

(** With a country selected, the chart grouped by country has one bar at
    most, and it is the bar of that country. *)
Theorem country_chart_of_selected_country (df : list PreparedRow)
    (location industry : string) (year_1b : Z * Z) (x : column) (f : func) :
  location <> "All" ->
  let bars := bar_chart (filtered_df df location industry year_1b) Country x f in
  (List.length bars <= 1)%nat
  /\ Forall (fun b => fst b = Str location) bars.
Proof.
  intros Hl bars.
  destruct (bar_chart_keys_spec (filtered_df df location industry year_1b)
              Country x f) as [Hnd Hin].
  fold bars in Hnd, Hin.
  assert (K : forall g, In g (map fst bars) -> g = Str location).
  { intros g Hg. apply Hin in Hg as (p & Hp & <-).
    rewrite filtered_df_fused in Hp.
    apply filter_In in Hp as [_ Hp]. unfold selected, chosen in Hp.
    rewrite !andb_true_iff in Hp. destruct Hp as [[Hc _] _].
    apply orb_true_iff in Hc as [Hc | Hc].
    - apply String.eqb_eq in Hc. contradiction.
    - simpl. destruct (country p) as [c |]; [| discriminate].
      apply String.eqb_eq in Hc. now subst. }
  split.
  - rewrite <- (length_map fst).
    destruct (map fst bars) as [| g [| h l]]; simpl; try lia.
    exfalso. inversion Hnd as [| ? ? Hg _]; subst. apply Hg.
    rewrite (K g), (K h); simpl; auto.
  - apply Forall_forall. intros b Hb. apply K. now apply in_map.
Qed.

Lemma country_chart_of_selected_country_witness :
  (List.length (bar_chart (filtered_df sample_prepared "France" "All" (2018, 2023)%Z)
                          Country Company Count) <= 1)%nat.
Proof.
  assert (H : "France" <> "All") by discriminate.
  exact (proj1 (@country_chart_of_selected_country sample_prepared "France"
                  "All" (2018, 2023) Company Count H)).
Defined.
